(** * MCPolice: statute registry, violation store and request handlers

    A shallow embedding of the violation-reporting service: the statute
    table of [statutes.ts], the record types of [types.ts], and the REST
    and JSON-RPC handlers of the Hono application, with the key-value
    binding [VIOLATIONS_KV] as an explicit store that every handler
    takes and returns.

    Conventions.
    - A value that can be [undefined] in the running program is an
      [option]; a JavaScript number produced by [parseInt] is an
      [option Z], [None] standing for [NaN].
    - An ISO-8601 timestamp is the number of milliseconds it denotes:
      [toISOString] has millisecond precision and [new Date(s)] reads it
      back exactly.
    - [Math.random] and [new Date()] are inputs of the handlers ([Env]).
    - [JSON.stringify] followed by [JSON.parse] is the identity on the
      stored records (their fields are strings and string arrays; a
      field that is [undefined] is dropped and reads back as
      [undefined]), so the store holds the records themselves.
    - The key-value binding is assumed to answer every call.
    - A string is the sequence of the bytes of its UTF-8 encoding.
    - Numbers are exact integers: the rounding of doubles above 2^53
      and the overflow to infinity are not modelled. *)

From Stdlib Require Import Ascii.
From stdpp Require Import gmap strings list.

Open Scope string_scope.

(** ** JavaScript values and operations used by the handlers *)

Module Js.

(** An exception travelling up to the nearest [catch]. *)
Inductive Error :=
| TypeError (message : string)
| SyntaxError (message : string).

(** [error.message] *)
Definition message (e : Error) : string :=
  match e with
  | TypeError m => m
  | SyntaxError m => m
  end.

Inductive Outcome (A : Type) :=
| Return (a : A)
| Throw (e : Error).
Arguments Return {A} a.
Arguments Throw {A} e.

Definition bind {A B} (m : Outcome A) (k : A -> Outcome B) : Outcome B :=
  match m with
  | Return a => k a
  | Throw e => Throw e
  end.

(** Reading property [prop] of [undefined]. *)
Definition undefined_read (prop : string) : Error :=
  TypeError ("Cannot read properties of undefined (reading '" ++ prop ++ "')").

Definition member {A} (prop : string) (o : option A) : Outcome A :=
  match o with
  | Some a => Return a
  | None => Throw (undefined_read prop)
  end.

(** Truthiness of a value that is a string or is missing: [undefined],
    [null] and the empty string are falsy. *)
Definition truthy (v : option string) : bool :=
  match v with
  | Some s => negb (String.eqb s "")
  | None => false
  end.

(** [a || b] on such values. *)
Definition or_else (v : option string) (dflt : string) : string :=
  if truthy v then default dflt v else dflt.

(** The properties every object literal inherits from
    [Object.prototype]. *)
Definition prototype_members : list string :=
  [ "constructor"; "__defineGetter__"; "__defineSetter__";
    "hasOwnProperty"; "__lookupGetter__"; "__lookupSetter__";
    "isPrototypeOf"; "propertyIsEnumerable"; "toString"; "valueOf";
    "__proto__"; "toLocaleString" ].

Definition is_prototype_member (k : string) : bool :=
  bool_decide (k ∈ prototype_members).

(** [String.prototype.includes]. *)
Fixpoint includes (needle hay : string) : bool :=
  String.prefix needle hay ||
  match hay with
  | EmptyString => false
  | String _ rest => includes needle rest
  end.

(** *** Numbers *)

Definition Number := option Z.

Definition add (a b : Number) : Number :=
  match a, b with
  | Some x, Some y => Some (x + y)%Z
  | _, _ => None
  end.

Definition lt (a b : Number) : bool :=
  match a, b with
  | Some x, Some y => (x <? y)%Z
  | _, _ => false
  end.

(** [parseInt(s)] without a radix: leading white space, a sign, an
    optional [0x] prefix, then the longest run of digits.  White space
    is what [StrWhiteSpaceChar] lists: the ASCII characters below, and
    U+00A0, U+1680, U+2000 to U+200A, U+2028, U+2029, U+202F, U+205F,
    U+3000 and U+FEFF, each by its UTF-8 bytes. *)
Definition is_white_space (c : ascii) : bool :=
  let n := nat_of_ascii c in
  ((n =? 9) || (n =? 10) || (n =? 11) || (n =? 12) || (n =? 13) || (n =? 32))%nat.

(** The number of bytes of the white space character that [s] starts
    with, 0 when it starts with none. *)
Definition white_space_bytes (s : string) : nat :=
  match s with
  | String a rest =>
      if is_white_space a then 1
      else
        match rest with
        | String b rest' =>
            let x := nat_of_ascii a in
            let y := nat_of_ascii b in
            if ((x =? 194) && (y =? 160))%nat then 2
            else
              match rest' with
              | String c _ =>
                  let z := nat_of_ascii c in
                  if (((x =? 225) && (y =? 154) && (z =? 128))
                      || ((x =? 226) && (y =? 128)
                          && (((128 <=? z) && (z <=? 138))
                              || (z =? 168) || (z =? 169) || (z =? 175)))
                      || ((x =? 226) && (y =? 129) && (z =? 159))
                      || ((x =? 227) && (y =? 128) && (z =? 128))
                      || ((x =? 239) && (y =? 187) && (z =? 191)))%nat
                  then 3 else 0
              | EmptyString => 0
              end
        | EmptyString => 0
        end
  | EmptyString => 0
  end.

Fixpoint drop_bytes (n : nat) (s : string) : string :=
  match n, s with
  | S n', String _ rest => drop_bytes n' rest
  | _, _ => s
  end.

(** One white space character is removed per unit of [fuel]; the length
    of the string is enough. *)
Fixpoint trim_start_within (fuel : nat) (s : string) : string :=
  match fuel with
  | 0 => s
  | S fuel' =>
      match white_space_bytes s with
      | 0 => s
      | n => trim_start_within fuel' (drop_bytes n s)
      end
  end.

Definition trim_start (s : string) : string :=
  trim_start_within (String.length s) s.

Definition digit_value (c : ascii) : option Z :=
  let n := Z.of_nat (nat_of_ascii c) in
  if ((48 <=? n) && (n <=? 57))%Z then Some (n - 48)%Z
  else if ((97 <=? n) && (n <=? 102))%Z then Some (n - 87)%Z
  else if ((65 <=? n) && (n <=? 70))%Z then Some (n - 55)%Z
  else None.

Fixpoint digits (radix : Z) (s : string) (acc : Number) : Number :=
  match s with
  | String c rest =>
      match digit_value c with
      | Some d =>
          if (d <? radix)%Z
          then digits radix rest (Some (default 0 acc * radix + d)%Z)
          else acc
      | None => acc
      end
  | EmptyString => acc
  end.

Definition parseInt (s : string) : Number :=
  let s1 := trim_start s in
  let '(sign, s2) :=
    match s1 with
    | String "-" rest => ((-1)%Z, rest)
    | String "+" rest => (1%Z, rest)
    | _ => (1%Z, s1)
    end in
  let '(radix, s3) :=
    match s2 with
    | String "0" (String "x" rest) => (16%Z, rest)
    | String "0" (String "X" rest) => (16%Z, rest)
    | _ => (10%Z, s2)
    end in
  Z.mul sign <$> digits radix s3 None.

(** *** Arrays *)

(** [Array.prototype.slice(start, end)]: [NaN] counts as 0, a negative
    index counts from the end, both are clamped to the array. *)
Definition to_integer (n : Number) : Z := default 0%Z n.

Definition relative_index (len k : Z) : Z :=
  if (k <? 0)%Z then Z.max (len + k) 0 else Z.min k len.

Definition slice {A} (l : list A) (start final : Number) : list A :=
  let len := Z.of_nat (length l) in
  let k := relative_index len (to_integer start) in
  let e := relative_index len (to_integer final) in
  take (Z.to_nat (e - k)) (drop (Z.to_nat k) l).

(** *** Objects used as dictionaries *)

(** What a counting accumulator can hold: a number, or the text that
    [+ 1] makes of an inherited member ([source] names the member whose
    string form starts the text, [ones] is the number of ["1"]
    characters appended so far). *)
Inductive Bucket :=
| Count (n : nat)
| Text (source : string) (ones : nat).

(** [acc[k] = (acc[k] || 0) + 1] on an accumulator that started as [{}].
    The read falls back to [Object.prototype] when [acc] has no own
    property [k]; what is found there is an object or a function, hence
    truthy, and [+ 1] turns it into a string.  Assigning to
    ["__proto__"] runs the inherited setter, which ignores a string. *)
Definition increment (acc : gmap string Bucket) (k : string) : gmap string Bucket :=
  if String.eqb k "__proto__" then acc
  else
    match acc !! k with
    | Some (Count n) => <[k := Count (n + 1)]> acc
    | Some (Text src ones) => <[k := Text src (ones + 1)]> acc
    | None =>
        if is_prototype_member k
        then <[k := Text k 1]> acc
        else <[k := Count 1]> acc
    end.

(** [String(v)] of a value used as a property key. *)
Definition property_key (v : option string) : string := default "undefined" v.

End Js.

Global Instance outcome_bind : MBind Js.Outcome :=
  fun A B k m => Js.bind m k.

(** ** The statute registry ([statutes.ts]) *)

Inductive Severity := LOW | MEDIUM | HIGH | CRITICAL.

Global Instance Severity_eq_dec : EqDecision Severity.
Proof. solve_decision. Defined.

Definition severity_name (s : Severity) : string :=
  match s with
  | LOW => "LOW"
  | MEDIUM => "MEDIUM"
  | HIGH => "HIGH"
  | CRITICAL => "CRITICAL"
  end.

Module StatuteInfo.
Record t := mk {
  organization : string;
  article : string;
  description : string;
  severity : Severity;
  jurisdiction : list string
}.
End StatuteInfo.

(** The own properties of the object literal, in definition order. *)
Definition INTERNATIONAL_STATUTES : list (string * StatuteInfo.t) :=
  [
    ("Rome Statute Article 6",
     {| StatuteInfo.organization := "ICC";
        StatuteInfo.article := "Rome Statute Article 6";
        StatuteInfo.description := "Genocide: Acts committed with intent to destroy, in whole or in part, a national, ethnical, racial or religious group, such as killing, causing serious bodily or mental harm, inflicting conditions of life calculated to destroy, imposing measures to prevent births, or forcibly transferring children.";
        StatuteInfo.severity := CRITICAL;
        StatuteInfo.jurisdiction := ["INTERNATIONAL"; "ICC"] |});
    ("Rome Statute Article 7",
     {| StatuteInfo.organization := "ICC";
        StatuteInfo.article := "Rome Statute Article 7";
        StatuteInfo.description := "Crimes against humanity: Widespread or systematic attacks against civilians, including murder, extermination, enslavement, deportation, imprisonment, torture, rape, persecution, enforced disappearance, apartheid, and other inhumane acts.";
        StatuteInfo.severity := CRITICAL;
        StatuteInfo.jurisdiction := ["INTERNATIONAL"; "ICC"] |});
    ("Rome Statute Article 8",
     {| StatuteInfo.organization := "ICC";
        StatuteInfo.article := "Rome Statute Article 8";
        StatuteInfo.description := "War crimes: Grave breaches of the Geneva Conventions, including willful killing, torture, inhuman treatment, unlawful deportation, taking hostages, attacking civilians, using prohibited weapons, starvation of civilians, and conscripting children under 15 into armed forces.";
        StatuteInfo.severity := CRITICAL;
        StatuteInfo.jurisdiction := ["INTERNATIONAL"; "ICC"] |});
    ("Rome Statute Article 8 bis",
     {| StatuteInfo.organization := "ICC";
        StatuteInfo.article := "Rome Statute Article 8 bis";
        StatuteInfo.description := "Crime of aggression: Planning, preparation, initiation or execution of an act of aggression by a state leader that constitutes a manifest violation of the UN Charter.";
        StatuteInfo.severity := CRITICAL;
        StatuteInfo.jurisdiction := ["INTERNATIONAL"; "ICC"] |});
    ("IAEA Statute Article XII.C",
     {| StatuteInfo.organization := "IAEA";
        StatuteInfo.article := "IAEA Statute Article XII.C";
        StatuteInfo.description := "Non-compliance with nuclear safeguards: Failure to declare nuclear material, diversion of nuclear material for non-peaceful purposes, or refusal to allow inspections.";
        StatuteInfo.severity := CRITICAL;
        StatuteInfo.jurisdiction := ["INTERNATIONAL"; "IAEA"] |});
    ("INFCIRC/153",
     {| StatuteInfo.organization := "IAEA";
        StatuteInfo.article := "INFCIRC/153";
        StatuteInfo.description := "Breach of comprehensive safeguards agreements: Failure to provide information, denial of access to facilities, or concealment of nuclear activities.";
        StatuteInfo.severity := CRITICAL;
        StatuteInfo.jurisdiction := ["INTERNATIONAL"; "IAEA"] |});
    ("INFCIRC/540",
     {| StatuteInfo.organization := "IAEA";
        StatuteInfo.article := "INFCIRC/540";
        StatuteInfo.description := "Breach of Additional Protocol: Failure to provide expanded information or access as required for verification of peaceful use of nuclear material.";
        StatuteInfo.severity := HIGH;
        StatuteInfo.jurisdiction := ["INTERNATIONAL"; "IAEA"] |});
    ("NPT Article III",
     {| StatuteInfo.organization := "IAEA";
        StatuteInfo.article := "NPT Article III";
        StatuteInfo.description := "Violation of the Treaty on the Non-Proliferation of Nuclear Weapons: Non-compliance with obligations to prevent the spread of nuclear weapons and technology.";
        StatuteInfo.severity := CRITICAL;
        StatuteInfo.jurisdiction := ["INTERNATIONAL"; "IAEA"] |});
    ("International Humanitarian Law (Geneva Conventions, Protocols)",
     {| StatuteInfo.organization := "WFO";
        StatuteInfo.article := "International Humanitarian Law (Geneva Conventions, Protocols)";
        StatuteInfo.description := "Starvation of civilians as a method of warfare: Prohibited to attack, destroy, remove, or render useless objects indispensable to the survival of the civilian population, such as foodstuffs, crops, livestock, and water supplies.";
        StatuteInfo.severity := CRITICAL;
        StatuteInfo.jurisdiction := ["INTERNATIONAL"; "WFO"] |});
    ("Universal Declaration of Human Rights Article 25",
     {| StatuteInfo.organization := "WFO";
        StatuteInfo.article := "Universal Declaration of Human Rights Article 25";
        StatuteInfo.description := "Denial of the right to adequate food: Failure to ensure access to sufficient, safe, and nutritious food for all people.";
        StatuteInfo.severity := HIGH;
        StatuteInfo.jurisdiction := ["INTERNATIONAL"; "UN"] |});
    ("Fourth Geneva Convention Article 33",
     {| StatuteInfo.organization := "WFO";
        StatuteInfo.article := "Fourth Geneva Convention Article 33";
        StatuteInfo.description := "Collective punishment: Prohibition of punishing protected persons for offenses they have not personally committed, including through denial of food or humanitarian aid.";
        StatuteInfo.severity := HIGH;
        StatuteInfo.jurisdiction := ["INTERNATIONAL"; "WFO"] |});
    ("1954 Hague Convention Article 4",
     {| StatuteInfo.organization := "UNESCO";
        StatuteInfo.article := "1954 Hague Convention Article 4";
        StatuteInfo.description := "Protection of cultural property in armed conflict: Prohibition of use, theft, pillage, or destruction of cultural property during armed conflict.";
        StatuteInfo.severity := HIGH;
        StatuteInfo.jurisdiction := ["INTERNATIONAL"; "UNESCO"] |});
    ("1999 Second Protocol Article 15",
     {| StatuteInfo.organization := "UNESCO";
        StatuteInfo.article := "1999 Second Protocol Article 15";
        StatuteInfo.description := "Serious violations against cultural property: Attacking, using for military purposes, extensive destruction, theft, pillage, or vandalism of protected cultural property.";
        StatuteInfo.severity := HIGH;
        StatuteInfo.jurisdiction := ["INTERNATIONAL"; "UNESCO"] |});
    ("1970 Convention Article 3",
     {| StatuteInfo.organization := "UNESCO";
        StatuteInfo.article := "1970 Convention Article 3";
        StatuteInfo.description := "Illicit trafficking of cultural property: Prohibition of the import, export, or transfer of ownership of cultural property contrary to the provisions of the Convention.";
        StatuteInfo.severity := MEDIUM;
        StatuteInfo.jurisdiction := ["INTERNATIONAL"; "UNESCO"] |});
    ("World Heritage Convention Article 11(4)",
     {| StatuteInfo.organization := "UNESCO";
        StatuteInfo.article := "World Heritage Convention Article 11(4)";
        StatuteInfo.description := "Failure to protect World Heritage sites: Allowing serious and specific dangers to threaten the conservation of cultural and natural heritage of outstanding universal value.";
        StatuteInfo.severity := MEDIUM;
        StatuteInfo.jurisdiction := ["INTERNATIONAL"; "UNESCO"] |})
  ].

(** What [INTERNATIONAL_STATUTES[statute]] evaluates to when it is not
    [undefined]: an entry of the table, or a member that the object
    literal inherits from [Object.prototype]. *)
Inductive StatuteLookup :=
| Entry (info : StatuteInfo.t)
| Inherited (name : string).

(** Property reads on the value found: an inherited member has none of
    the [StatuteInfo] fields. *)
Definition lookup_organization (v : StatuteLookup) : option string :=
  match v with
  | Entry info => Some (StatuteInfo.organization info)
  | Inherited _ => None
  end.

Definition lookup_description (v : StatuteLookup) : option string :=
  match v with
  | Entry info => Some (StatuteInfo.description info)
  | Inherited _ => None
  end.

Definition lookup_severity (v : StatuteLookup) : option Severity :=
  match v with
  | Entry info => Some (StatuteInfo.severity info)
  | Inherited _ => None
  end.

Definition lookup_jurisdiction (v : StatuteLookup) : option (list string) :=
  match v with
  | Entry info => Some (StatuteInfo.jurisdiction info)
  | Inherited _ => None
  end.

(** The own property named [statute], if the table has one. *)
Fixpoint own_property (table : list (string * StatuteInfo.t)) (statute : string)
  : option StatuteInfo.t :=
  match table with
  | [] => None
  | (key, info) :: rest =>
      if String.eqb key statute then Some info else own_property rest statute
  end.

(** [INTERNATIONAL_STATUTES[statute] || null]: own properties first, then
    the prototype; whatever is found is truthy. *)
Definition getStatuteInfo (statute : string) : option StatuteLookup :=
  match own_property INTERNATIONAL_STATUTES statute with
  | Some info => Some (Entry info)
  | None =>
      if Js.is_prototype_member statute then Some (Inherited statute) else None
  end.

Definition getAllStatutes : list StatuteInfo.t := INTERNATIONAL_STATUTES.*2.

(** ** Records ([types.ts]) *)

Module Violation.
Record t := mk {
  description : option string;
  severity : option Severity;
  jurisdiction : option (list string)
}.
End Violation.

Module Metadata.
Record t := mk {
  reportedAt : Z;
  mcpVersion : string;
  detectedBy : string
}.
End Metadata.

Module ViolationReport.
Record t := mk {
  id : string;
  timestamp : Z;
  statute : string;
  responsibleOrganization : string;
  offendingContent : string;
  violation : Violation.t;
  metadata : Metadata.t
}.
End ViolationReport.

Module SimpleViolationRequest.
Record t := mk {
  statute : option string;
  responsible_organization : option string;
  offending_content : option string
}.
End SimpleViolationRequest.

Module ViolationStats.
Record t := mk {
  total : nat;
  bySeverity : gmap string Js.Bucket;
  byJurisdiction : gmap string Js.Bucket;
  byAiTool : gmap string Js.Bucket;
  recent24h : nat
}.
End ViolationStats.

(** A record as the [ViolationReport] interface declares it: the three
    fields of [violation] are present. *)
Definition well_formed (v : ViolationReport.t) : Prop :=
  is_Some (Violation.description (ViolationReport.violation v)) ∧
  is_Some (Violation.severity (ViolationReport.violation v)) ∧
  is_Some (Violation.jurisdiction (ViolationReport.violation v)).

(** ** The key-value binding [VIOLATIONS_KV]

    Two kinds of keys are in use: ["violation:" ++ id] holds a record and
    ["violation_list"] holds the array of ids.  No key of the first kind
    equals the second, so the binding is a pair of a map from ids to
    records and the array, absent until first written. *)
Record Store := {
  violations : gmap string ViolationReport.t;
  violation_list : option (list string)
}.

Definition empty_store : Store :=
  {| violations := ∅; violation_list := None |}.

Definition put_violation (v : ViolationReport.t) (kv : Store) : Store :=
  {| violations := <[ViolationReport.id v := v]> (violations kv);
     violation_list := violation_list kv |}.

Definition get_violation (id : string) (kv : Store) : option ViolationReport.t :=
  violations kv !! id.

Definition delete_violation (id : string) (kv : Store) : Store :=
  {| violations := delete id (violations kv);
     violation_list := violation_list kv |}.

Definition put_violation_list (ids : list string) (kv : Store) : Store :=
  {| violations := violations kv; violation_list := Some ids |}.

Definition delete_violation_list (kv : Store) : Store :=
  {| violations := violations kv; violation_list := None |}.

(** [existingList ? JSON.parse(existingList) : []] *)
Definition read_violation_ids (kv : Store) : list string :=
  default [] (violation_list kv).

(** The fetch loop shared by the readers: the records of the ids of the
    index, in index order, an id without a record being skipped. *)
Definition fetch_violations (kv : Store) : list ViolationReport.t :=
  omap (fun id => get_violation id kv) (read_violation_ids kv).

(** ** What a handler reads from its environment *)
Record Env := {
  random_id : string;    (* Math.random().toString(36).substring(2, 15) *)
  now_timestamp : Z;     (* first  new Date() *)
  now_reportedAt : Z     (* second new Date() *)
}.

(** The record literal built by both submission handlers. *)
Definition build_violation (env : Env) (statute responsible_organization
    offending_content : string) (statuteInfo : StatuteLookup) : ViolationReport.t :=
  {| ViolationReport.id := random_id env;
     ViolationReport.timestamp := now_timestamp env;
     ViolationReport.statute := statute;
     ViolationReport.responsibleOrganization := responsible_organization;
     ViolationReport.offendingContent := offending_content;
     ViolationReport.violation :=
       {| Violation.description := lookup_description statuteInfo;
          Violation.severity := lookup_severity statuteInfo;
          Violation.jurisdiction := lookup_jurisdiction statuteInfo |};
     ViolationReport.metadata :=
       {| Metadata.reportedAt := now_reportedAt env;
          Metadata.mcpVersion := "1.0";
          Metadata.detectedBy := responsible_organization ++ " Safety System" |} |}.

(** The two writes that follow: the record, then the index with the new
    id in front. *)
Definition store_violation (violation : ViolationReport.t) (kv : Store) : Store :=
  let kv1 := put_violation violation kv in
  let violationIds := read_violation_ids kv1 in
  put_violation_list (ViolationReport.id violation :: violationIds) kv1.

(** ** REST handlers *)

Inductive ReportResponse :=
| ReportReceived (violationId : string) (severity : option Severity)
    (organization : option string)                       (* 200 *)
| ReportRejected (status : nat) (error : string).

Definition missing_fields : string :=
  "Missing required fields: statute, responsible_organization, offending_content".

(** [POST /api/violations/report].  [body] is [None] when the request
    body does not parse as JSON or is [null], in which case reading it
    throws and the [catch] answers. *)
Definition post_report (env : Env) (body : option SimpleViolationRequest.t)
    (kv : Store) : ReportResponse * Store :=
  match body with
  | None => (ReportRejected 400 "Invalid request format", kv)
  | Some body =>
      let statute := SimpleViolationRequest.statute body in
      let responsible_organization := SimpleViolationRequest.responsible_organization body in
      let offending_content := SimpleViolationRequest.offending_content body in
      if negb (Js.truthy statute) || negb (Js.truthy responsible_organization)
         || negb (Js.truthy offending_content)
      then (ReportRejected 400 missing_fields, kv)
      else
        let statute := default "" statute in
        let responsible_organization := default "" responsible_organization in
        let offending_content := default "" offending_content in
        match getStatuteInfo statute with
        | None =>
            (ReportRejected 400
               ("Unknown statute: " ++ statute
                ++ ". Please use a valid international law statute."), kv)
        | Some statuteInfo =>
            let violation :=
              build_violation env statute responsible_organization
                offending_content statuteInfo in
            let kv' := store_violation violation kv in
            (ReportReceived (ViolationReport.id violation)
               (Violation.severity (ViolationReport.violation violation))
               (lookup_organization statuteInfo), kv')
        end
  end.

Module ViolationsQuery.
(** The query string of [GET /api/violations]; a parameter that is not
    given reads as [undefined]. *)
Record t := mk {
  limit : option string;
  offset : option string;
  severity : option string;
  jurisdiction : option string
}.
End ViolationsQuery.

Module ViolationsPage.
Record t := mk {
  violations : list ViolationReport.t;
  total : nat;
  hasMore : bool
}.
End ViolationsPage.

(** [v.violation.severity === severity] *)
Definition severity_is (severity : string) (v : ViolationReport.t) : bool :=
  bool_decide
    (severity_name <$> Violation.severity (ViolationReport.violation v) = Some severity).

(** [filtered.filter(v => v.violation.jurisdiction.includes(jurisdiction))];
    reading [includes] of a missing [jurisdiction] throws. *)
Fixpoint filter_jurisdiction (jurisdiction : string) (l : list ViolationReport.t)
  : Js.Outcome (list ViolationReport.t) :=
  match l with
  | [] => Js.Return []
  | v :: rest =>
      js ← Js.member "includes" (Violation.jurisdiction (ViolationReport.violation v));
      kept ← filter_jurisdiction jurisdiction rest;
      Js.Return (if bool_decide (jurisdiction ∈ js) then v :: kept else kept)
  end.

(** The body of [GET /api/violations] once [limit] and [offset] are
    numbers: fetch, filter, slice. *)
Definition list_violations (kv : Store) (severity jurisdiction : option string)
    (limit offset : Js.Number) : Js.Outcome ViolationsPage.t :=
  let violations := fetch_violations kv in
  let filtered :=
    if Js.truthy severity
    then filter (fun v => severity_is (default "" severity) v = true) violations
    else violations in
  filtered ←
    (if Js.truthy jurisdiction
     then filter_jurisdiction (default "" jurisdiction) filtered
     else Js.Return filtered);
  let paginated := Js.slice filtered offset (Js.add offset limit) in
  Js.Return
    {| ViolationsPage.violations := paginated;
       ViolationsPage.total := length filtered;
       ViolationsPage.hasMore :=
         Js.lt (Js.add offset limit) (Some (Z.of_nat (length filtered))) |}.

(** [GET /api/violations] *)
Definition get_violations (q : ViolationsQuery.t) (kv : Store)
  : Js.Outcome ViolationsPage.t :=
  let limit := Js.parseInt (Js.or_else (ViolationsQuery.limit q) "50") in
  let offset := Js.parseInt (Js.or_else (ViolationsQuery.offset q) "0") in
  list_violations kv (ViolationsQuery.severity q) (ViolationsQuery.jurisdiction q)
    limit offset.

Inductive GetResponse :=
| Found (violation : ViolationReport.t)     (* 200 *)
| NotFound (status : nat) (error : string).

(** [GET /api/violations/:id] *)
Definition get_violation_by_id (id : string) (kv : Store) : GetResponse :=
  match get_violation id kv with
  | None => NotFound 404 "Violation not found"
  | Some violation => Found violation
  end.

(** [violations.reduce((acc, v) => { acc[key(v)] = (acc[key(v)] || 0) + 1;
    return acc }, {})] *)
Definition count_by (key : ViolationReport.t -> string)
    (violations : list ViolationReport.t) : gmap string Js.Bucket :=
  foldl (fun acc v => Js.increment acc (key v)) ∅ violations.

Definition severity_key (v : ViolationReport.t) : string :=
  Js.property_key (severity_name <$> Violation.severity (ViolationReport.violation v)).

(** The [byJurisdiction] reduction: one increment per entry of each
    record's [jurisdiction]; [forEach] of a missing one throws. *)
Fixpoint count_jurisdictions (acc : gmap string Js.Bucket)
    (violations : list ViolationReport.t) : Js.Outcome (gmap string Js.Bucket) :=
  match violations with
  | [] => Js.Return acc
  | v :: rest =>
      js ← Js.member "forEach" (Violation.jurisdiction (ViolationReport.violation v));
      count_jurisdictions (foldl Js.increment acc js) rest
  end.

Definition DAY_MS : Z := 24 * 60 * 60 * 1000.

(** [violations.filter(v => new Date(v.timestamp) > yesterday).length] *)
Definition recent (now : Z) (violations : list ViolationReport.t) : nat :=
  let yesterday := (now - DAY_MS)%Z in
  length (filter (fun v => (yesterday <? ViolationReport.timestamp v)%Z = true) violations).

(** [GET /api/stats] *)
Definition get_stats (now : Z) (kv : Store) : Js.Outcome ViolationStats.t :=
  let violations := fetch_violations kv in
  byJurisdiction ← count_jurisdictions ∅ violations;
  Js.Return
    {| ViolationStats.total := length violations;
       ViolationStats.bySeverity := count_by severity_key violations;
       ViolationStats.byJurisdiction := byJurisdiction;
       ViolationStats.byAiTool := count_by ViolationReport.responsibleOrganization violations;
       ViolationStats.recent24h := recent now violations |}.

(** [DELETE /api/admin/clear-data]: the number of ids that were in the
    index, and the binding without their records and without the index. *)
Definition clear_data (kv : Store) : nat * Store :=
  let violationIds := read_violation_ids kv in
  let kv1 := foldl (fun kv id => delete_violation id kv) kv violationIds in
  (length violationIds, delete_violation_list kv1).

(** ** The JSON-RPC transport ([POST /mcp]) *)

Inductive RpcId :=
| IdNumber (n : Z)
| IdString (s : string)
| IdNull.

Module ToolArguments.
(** [params.arguments]: the fields read by [report_violation] and by
    [list_violations]. *)
Record t := mk {
  statute : option string;
  responsible_organization : option string;
  offending_content : option string;
  limit : option Z;
  severity : option string
}.
End ToolArguments.

Module RpcParams.
Record t := mk {
  protocolVersion : option string;
  name : option string;
  arguments : option ToolArguments.t
}.
End RpcParams.

Module RpcRequest.
(** The request body, a JSON object; [id] is [None] when the body has
    no [id] property. *)
Record t := mk {
  jsonrpc : option string;
  method : option string;
  id : option RpcId;
  params : option RpcParams.t
}.
End RpcRequest.

(** The text of a tool result, by the values its template prints. *)
Inductive ToolText :=
| ReportedText (violation : ViolationReport.t) (organization : option string)
    (jurisdiction : string)
| StatutesText (statutes : list StatuteInfo.t)
| StatsText (total : nat) (bySeverity byOrganization : gmap string Js.Bucket)
    (recent24h : nat)
| NoViolationsText
| ViolationsText (recentViolations : list ViolationReport.t) (matching : nat).

Inductive RpcResult :=
| InitializeResult (protocolVersion : string)
| ToolsListResult
| ToolResult (text : ToolText).

Inductive RpcPayload :=
| RpcSuccess (id : RpcId) (result : RpcResult)
| RpcFailure (id : RpcId) (code : Z) (message : string).

Inductive HttpResponse :=
| Json (status : nat) (payload : RpcPayload)      (* c.json(payload, status) *)
| EventStream (body : string).                    (* text/event-stream, 200 *)

Definition LF : string := String (ascii_of_nat 10) EmptyString.

(** [accept?.includes('text/event-stream')], as a condition. *)
Definition wants_stream (accept : option string) : bool :=
  match accept with
  | Some a => Js.includes "text/event-stream" a
  | None => false
  end.

(** [body.id || null] *)
Definition id_or_null (id : option RpcId) : RpcId :=
  match id with
  | Some (IdNumber 0) => IdNull
  | Some (IdString "") => IdNull
  | Some i => i
  | None => IdNull
  end.

Definition destructure_undefined (prop : string) : Js.Error :=
  Js.TypeError
    ("Cannot destructure property '" ++ prop ++ "' of 'args' as it is undefined.").

Definition internal_error (e : Js.Error) : HttpResponse :=
  Json 500 (RpcFailure IdNull (-32603) ("Internal error: " ++ Js.message e)).

Section Transport.

(** [JSON.stringify] on a response object. *)
Variable JSON_stringify : RpcPayload -> string.

Definition sse_frame (response : RpcPayload) : string :=
  "event: message" ++ LF ++ "data: " ++ JSON_stringify response ++ LF ++ LF.

Definition sendMcpResponse (response : RpcPayload) (wantsStream : bool)
  : HttpResponse :=
  if wantsStream then EventStream (sse_frame response) else Json 200 response.

(** [case 'report_violation'] *)
Definition call_report_violation (env : Env) (id : RpcId)
    (args : option ToolArguments.t) (kv : Store) : HttpResponse * Store :=
  match args with
  | None => (internal_error (destructure_undefined "statute"), kv)
  | Some args =>
      let statute := ToolArguments.statute args in
      let responsible_organization := ToolArguments.responsible_organization args in
      let offending_content := ToolArguments.offending_content args in
      if negb (Js.truthy statute) || negb (Js.truthy responsible_organization)
         || negb (Js.truthy offending_content)
      then (Json 400 (RpcFailure id (-32602) missing_fields), kv)
      else
        let statute := default "" statute in
        let responsible_organization := default "" responsible_organization in
        let offending_content := default "" offending_content in
        match getStatuteInfo statute with
        | None =>
            (Json 400 (RpcFailure id (-32602)
               ("Unknown statute: " ++ statute
                ++ ". Use list_statutes tool to see available statutes.")), kv)
        | Some statuteInfo =>
            let violation :=
              build_violation env statute responsible_organization
                offending_content statuteInfo in
            let kv' := store_violation violation kv in
            match Js.member "join"
                    (Violation.jurisdiction (ViolationReport.violation violation)) with
            | Js.Throw e => (internal_error e, kv')
            | Js.Return js =>
                (Json 200 (RpcSuccess id (ToolResult
                   (ReportedText violation (lookup_organization statuteInfo)
                      (String.concat ", " js)))), kv')
            end
        end
  end.

(** [case 'get_violation_stats'] *)
Definition call_get_violation_stats (env : Env) (id : RpcId) (kv : Store)
  : HttpResponse :=
  let violations := fetch_violations kv in
  Json 200 (RpcSuccess id (ToolResult
    (StatsText (length violations)
       (count_by severity_key violations)
       (count_by ViolationReport.responsibleOrganization violations)
       (recent (now_timestamp env) violations)))).

(** [case 'list_violations'] *)
Definition call_list_violations (id : RpcId) (args : option ToolArguments.t)
    (kv : Store) : HttpResponse :=
  match args with
  | None => internal_error (Js.undefined_read "limit")
  | Some args =>
      let limit := default 10%Z (ToolArguments.limit args) in
      let severity := ToolArguments.severity args in
      let violations := fetch_violations kv in
      let violations :=
        if Js.truthy severity
        then filter (fun v => severity_is (default "" severity) v = true) violations
        else violations in
      let recentViolations := Js.slice violations (Some 0%Z) (Some limit) in
      if (length recentViolations =? 0)%nat
      then Json 200 (RpcSuccess id (ToolResult NoViolationsText))
      else Json 200 (RpcSuccess id (ToolResult
             (ViolationsText recentViolations (length violations))))
  end.

(** [case 'tools/call'] *)
Definition tools_call (env : Env) (id : RpcId) (params : option RpcParams.t)
    (kv : Store) : HttpResponse * Store :=
  let name := params ≫= RpcParams.name in
  let args := params ≫= RpcParams.arguments in
  if negb (Js.truthy name)
  then (Json 400 (RpcFailure id (-32602) "Invalid params - missing tool name"), kv)
  else
    let name := default "" name in
    if String.eqb name "report_violation" then call_report_violation env id args kv
    else if String.eqb name "list_statutes" then
      (Json 200 (RpcSuccess id (ToolResult (StatutesText getAllStatutes))), kv)
    else if String.eqb name "get_violation_stats" then
      (call_get_violation_stats env id kv, kv)
    else if String.eqb name "list_violations" then
      (call_list_violations id args kv, kv)
    else
      (Json 404 (RpcFailure id (-32601) ("Tool '" ++ name ++ "' not found")), kv).

(** The envelope test: [body.jsonrpc !== '2.0' || !body.method ||
    body.id === undefined] is false. *)
Definition valid_envelope (body : RpcRequest.t) : bool :=
  bool_decide (RpcRequest.jsonrpc body = Some "2.0")
  && Js.truthy (RpcRequest.method body)
  && bool_decide (is_Some (RpcRequest.id body)).

(** [POST /mcp] *)
Definition post_mcp (env : Env) (accept : option string) (body : RpcRequest.t)
    (kv : Store) : HttpResponse * Store :=
  let wantsStream := wants_stream accept in
  if negb (valid_envelope body)
  then
    let errorResponse :=
      RpcFailure (id_or_null (RpcRequest.id body)) (-32600)
        "Invalid Request - must be JSON-RPC 2.0 format" in
    (if wantsStream then EventStream (sse_frame errorResponse)
     else Json 400 errorResponse, kv)
  else
    let method := default "" (RpcRequest.method body) in
    let params := RpcRequest.params body in
    let id := default IdNull (RpcRequest.id body) in
    if String.eqb method "initialize" then
      let response :=
        RpcSuccess id (InitializeResult
          (Js.or_else (params ≫= RpcParams.protocolVersion) "2024-11-05")) in
      (sendMcpResponse response wantsStream, kv)
    else if String.eqb method "tools/list" then
      (sendMcpResponse (RpcSuccess id ToolsListResult) wantsStream, kv)
    else if String.eqb method "tools/call" then
      tools_call env id params kv
    else
      (Json 404 (RpcFailure id (-32601) ("Method '" ++ method ++ "' not found")), kv).

(** The whole route: [body] is what [await c.req.json()] and the first
    property read of the handler make of the request body, that is the
    error thrown when the body does not parse as JSON or is [null], and
    otherwise the value read (a value that is not an object has none of
    the four properties).  The thrown error goes to the outer [catch]. *)
Definition post_mcp_request (env : Env) (accept : option string)
    (body : Js.Outcome RpcRequest.t) (kv : Store) : HttpResponse * Store :=
  match body with
  | Js.Throw e => (internal_error e, kv)
  | Js.Return body => post_mcp env accept body kv
  end.

End Transport.

(** ** The statute listing route *)

Module StatuteSummary.
Record t := mk {
  article : string;
  organization : string;
  description : string;
  severity : Severity
}.
End StatuteSummary.

(** [GET /api/statutes]: the [statutes] array of the answer. *)
Definition get_statutes : list StatuteSummary.t :=
  (fun s =>
     {| StatuteSummary.article := StatuteInfo.article s;
        StatuteSummary.organization := StatuteInfo.organization s;
        StatuteSummary.description := StatuteInfo.description s;
        StatuteSummary.severity := StatuteInfo.severity s |}) <$> getAllStatutes.

(** ** The stdio server and its in-memory store *)

Module ViolationStore.

Record t := mk {
  violations : list ViolationReport.t;
  violationIds : list string
}.

(** [new ViolationStore()] *)
Definition empty : t := {| violations := []; violationIds := [] |}.

(** [push] on the records, [unshift] on the ids. *)
Definition addViolation (violation : ViolationReport.t) (store : t) : t :=
  {| violations := violations store ++ [violation];
     violationIds := ViolationReport.id violation :: violationIds store |}.

(** [[...this.violations].reverse()] *)
Definition getViolations (store : t) : list ViolationReport.t :=
  reverse (violations store).

(** [this.violations.find(v => v.id === id) || null] *)
Definition getViolationById (id : string) (store : t) : option ViolationReport.t :=
  List.find (fun v => String.eqb (ViolationReport.id v) id) (violations store).

Record Stats := mkStats {
  total : nat;
  bySeverity : gmap string Js.Bucket;
  byOrganization : gmap string Js.Bucket;
  recent24h : nat
}.

Definition getStats (now : Z) (store : t) : Stats :=
  {| total := length (violations store);
     bySeverity := count_by severity_key (violations store);
     byOrganization :=
       count_by ViolationReport.responsibleOrganization (violations store);
     recent24h := recent now (violations store) |}.

End ViolationStore.

(** The codes of [ErrorCode] that the tool handler throws. *)
Inductive ErrorCode := InvalidParams | MethodNotFound | InternalError.

(** [new McpError(code, message)], by the arguments of the constructor. *)
Inductive McpError :=
| mkMcpError (code : ErrorCode) (message : string).

(** The [catch] of the tool handler: an [McpError] is thrown on as it
    is, anything else is wrapped as an internal error. *)
Definition wrap_error (name : string) (e : Js.Error) : McpError :=
  mkMcpError InternalError
    ("Error executing tool '" ++ name ++ "': " ++ Js.message e).

(** [typedArgs.statute] on arguments that are [undefined]. *)
Definition typed_args (args : option ToolArguments.t) : Js.Outcome ToolArguments.t :=
  Js.member "statute" args.

(** The [CallToolRequestSchema] handler: the error thrown or the text of
    the result, and the store afterwards. *)
Definition stdio_call_tool (env : Env) (name : string)
    (args : option ToolArguments.t) (store : ViolationStore.t)
  : (McpError + ToolText) * ViolationStore.t :=
  if String.eqb name "report_violation" then
    match typed_args args with
    | Js.Throw e => (inl (wrap_error name e), store)
    | Js.Return typedArgs =>
        let statute := ToolArguments.statute typedArgs in
        let responsible_organization := ToolArguments.responsible_organization typedArgs in
        let offending_content := ToolArguments.offending_content typedArgs in
        if negb (Js.truthy statute) || negb (Js.truthy responsible_organization)
           || negb (Js.truthy offending_content)
        then (inl (mkMcpError InvalidParams missing_fields), store)
        else
          let statute := default "" statute in
          let responsible_organization := default "" responsible_organization in
          let offending_content := default "" offending_content in
          match getStatuteInfo statute with
          | None =>
              (inl (mkMcpError InvalidParams
                      ("Unknown statute: " ++ statute
                       ++ ". Use list_statutes tool to see available statutes.")),
               store)
          | Some statuteInfo =>
              let violation :=
                build_violation env statute responsible_organization
                  offending_content statuteInfo in
              let store' := ViolationStore.addViolation violation store in
              match Js.member "join"
                      (Violation.jurisdiction (ViolationReport.violation violation)) with
              | Js.Throw e => (inl (wrap_error name e), store')
              | Js.Return js =>
                  (inr (ReportedText violation (lookup_organization statuteInfo)
                          (String.concat ", " js)), store')
              end
          end
    end
  else if String.eqb name "list_statutes" then
    (inr (StatutesText getAllStatutes), store)
  else
    (inl (mkMcpError MethodNotFound ("Tool '" ++ name ++ "' not found")), store).

(** The [enum] that the stdio [tools/list] puts on the [statute]
    parameter of [report_violation]. *)
Definition statute_enum : list string := StatuteInfo.article <$> getAllStatutes.

(** ** Vocabulary of the statements *)

Definition request (statute responsible_organization offending_content : string)
  : SimpleViolationRequest.t :=
  {| SimpleViolationRequest.statute := Some statute;
     SimpleViolationRequest.responsible_organization := Some responsible_organization;
     SimpleViolationRequest.offending_content := Some offending_content |}.

(** One of the three required inputs is absent or empty. *)
Definition missing_input (statute responsible_organization offending_content : option string)
  : Prop :=
  Js.truthy statute = false ∨ Js.truthy responsible_organization = false
  ∨ Js.truthy offending_content = false.


(** The record that a submission passing both checks builds. *)
Definition submitted_record (env : Env) (body : SimpleViolationRequest.t)
  : option ViolationReport.t :=
  let statute := SimpleViolationRequest.statute body in
  let responsible_organization := SimpleViolationRequest.responsible_organization body in
  let offending_content := SimpleViolationRequest.offending_content body in
  if Js.truthy statute && Js.truthy responsible_organization && Js.truthy offending_content
  then build_violation env (default "" statute) (default "" responsible_organization)
         (default "" offending_content) <$> getStatuteInfo (default "" statute)
  else None.

(** A sequence of submissions, each with its own environment, run one
    after the other. *)
Fixpoint submit_all (inputs : list (Env * SimpleViolationRequest.t)) (kv : Store)
  : list ReportResponse * Store :=
  match inputs with
  | [] => ([], kv)
  | (env, body) :: rest =>
      let '(r, kv1) := post_report env (Some body) kv in
      let '(rs, kv2) := submit_all rest kv1 in
      (r :: rs, kv2)
  end.

(** A record has severity [severity] when its [violation.severity] is
    present and is the level of that name. *)
Definition has_severity (severity : string) (v : ViolationReport.t) : bool :=
  match Violation.severity (ViolationReport.violation v) with
  | Some LOW => String.eqb severity "LOW"
  | Some MEDIUM => String.eqb severity "MEDIUM"
  | Some HIGH => String.eqb severity "HIGH"
  | Some CRITICAL => String.eqb severity "CRITICAL"
  | None => false
  end.

(** The filter of a query, as a predicate on records: a filter that is
    absent or empty selects everything; a severity filter selects the
    records of exactly that severity, a jurisdiction filter those whose
    jurisdiction list contains it. *)
Definition selected (severity jurisdiction : option string) (v : ViolationReport.t)
  : bool :=
  match severity with
  | Some s => String.eqb s "" || has_severity s v
  | None => true
  end
  &&
  match jurisdiction with
  | Some j =>
      String.eqb j ""
      || bool_decide (j ∈ default [] (Violation.jurisdiction (ViolationReport.violation v)))
  | None => true
  end.

(** How often [k] occurs in a list of keys, and the bucket a correct
    count would leave: none for zero, the number otherwise. *)
Definition occurrences (k : string) (keys : list string) : nat :=
  length (filter (fun k' => k' = k) keys).

Definition counted (n : nat) : option Js.Bucket :=
  match n with
  | 0 => None
  | S _ => Some (Js.Count n)
  end.

Definition jurisdictions (v : ViolationReport.t) : list string :=
  default [] (Violation.jurisdiction (ViolationReport.violation v)).

(** The ids of the index that have a record. *)
Definition present_ids (kv : Store) : list string :=
  filter (fun id => is_Some (violations kv !! id)) (read_violation_ids kv).

Definition reported_total (r : Js.Outcome ViolationsPage.t) : option nat :=
  match r with
  | Js.Return page => Some (ViolationsPage.total page)
  | Js.Throw _ => None
  end.

(** ** Sample inputs *)

Definition env1 : Env :=
  {| random_id := "k3v9x1q0zab";
     now_timestamp := 1700000000000;
     now_reportedAt := 1700000000001 |}.

Definition env2 : Env :=
  {| random_id := "p7m2c4d8wyz";
     now_timestamp := 1700000060000;
     now_reportedAt := 1700000060000 |}.

Definition rome7 : StatuteInfo.t :=
  {| StatuteInfo.organization := "ICC";
     StatuteInfo.article := "Rome Statute Article 7";
     StatuteInfo.description := "Crimes against humanity: Widespread or systematic attacks against civilians, including murder, extermination, enslavement, deportation, imprisonment, torture, rape, persecution, enforced disappearance, apartheid, and other inhumane acts.";
     StatuteInfo.severity := CRITICAL;
     StatuteInfo.jurisdiction := ["INTERNATIONAL"; "ICC"] |}.

Definition report_arguments (statute responsible_organization offending_content
    : option string) : ToolArguments.t :=
  {| ToolArguments.statute := statute;
     ToolArguments.responsible_organization := responsible_organization;
     ToolArguments.offending_content := offending_content;
     ToolArguments.limit := None;
     ToolArguments.severity := None |}.

(** A [tools/call] envelope. *)
Definition tool_call (id : RpcId) (name : string) (args : option ToolArguments.t)
  : RpcRequest.t :=
  {| RpcRequest.jsonrpc := Some "2.0";
     RpcRequest.method := Some "tools/call";
     RpcRequest.id := Some id;
     RpcRequest.params :=
       Some {| RpcParams.protocolVersion := None;
               RpcParams.name := Some name;
               RpcParams.arguments := args |} |}.

Definition body1 : SimpleViolationRequest.t :=
  request "Rome Statute Article 7" "TestAI" "x".

Definition body2 : SimpleViolationRequest.t :=
  request "INFCIRC/540" "Gemini" "enrichment question".

(** The binding after two acknowledged submissions. *)
Definition kv_two : Store :=
  (submit_all [(env1, body1); (env2, body2)] empty_store).2.

(** The same binding with an id in the index that has no record. *)
Definition kv_dangling : Store :=
  put_violation_list ("p7m2c4d8wyz" :: "gone" :: ["k3v9x1q0zab"]) kv_two.

(** An [initialize] envelope without parameters. *)
Definition initialize_call (id : RpcId) : RpcRequest.t :=
  {| RpcRequest.jsonrpc := Some "2.0";
     RpcRequest.method := Some "initialize";
     RpcRequest.id := Some id;
     RpcRequest.params := None |}.

(** ** Vocabulary of the further statements *)

(** What a client can do to the binding, and a run of such operations. *)
Inductive Operation :=
| Report (env : Env) (body : option SimpleViolationRequest.t)
| Call (env : Env) (accept : option string) (body : RpcRequest.t)
| Clear.

Definition step (JSON_stringify : RpcPayload -> string) (kv : Store)
    (op : Operation) : Store :=
  match op with
  | Report env body => (post_report env body kv).2
  | Call env accept body => (post_mcp JSON_stringify env accept body kv).2
  | Clear => (clear_data kv).2
  end.

Definition run (JSON_stringify : RpcPayload -> string) (ops : list Operation)
    (kv : Store) : Store :=
  foldl (step JSON_stringify) kv ops.

(** The index and the records fit: every id of the index has a record,
    every record is stored under its own id, and that id is in the
    index. *)
Definition coherent (kv : Store) : Prop :=
  (∀ id, id ∈ read_violation_ids kv -> is_Some (violations kv !! id))
  ∧ (∀ id v, violations kv !! id = Some v ->
       ViolationReport.id v = id ∧ id ∈ read_violation_ids kv).

(** What an accumulator holds at [k] after [n] increments of [k]. *)
Definition bucket_after (k : string) (n : nat) : option Js.Bucket :=
  match n with
  | 0 => None
  | S _ =>
      if String.eqb k "__proto__" then None
      else if Js.is_prototype_member k then Some (Js.Text k n)
      else Some (Js.Count n)
  end.

(** The number a dictionary shows for [k], 0 when it has no entry. *)
Definition count_of (m : gmap string Js.Bucket) (k : string) : nat :=
  match m !! k with
  | Some (Js.Count n) => n
  | _ => 0
  end.




(** The REST body that carries the same three inputs as the arguments
    of a tool call. *)
Definition body_of (args : ToolArguments.t) : SimpleViolationRequest.t :=
  {| SimpleViolationRequest.statute := ToolArguments.statute args;
     SimpleViolationRequest.responsible_organization :=
       ToolArguments.responsible_organization args;
     SimpleViolationRequest.offending_content := ToolArguments.offending_content args |}.

Definition list_arguments (limit : option Z) (severity : option string)
  : ToolArguments.t :=
  {| ToolArguments.statute := None;
     ToolArguments.responsible_organization := None;
     ToolArguments.offending_content := None;
     ToolArguments.limit := limit;
     ToolArguments.severity := severity |}.



Definition add_all (records : list ViolationReport.t) : ViolationStore.t :=
  foldl (fun store v => ViolationStore.addViolation v store) ViolationStore.empty records.

Definition store_all (records : list ViolationReport.t) : Store :=
  foldl (fun kv v => store_violation v kv) empty_store records.

(** ** Basic facts *)

Lemma truthy_Some s : s ≠ "" -> Js.truthy (Some s) = true.
Proof.
  intros Hs. unfold Js.truthy.
  destruct (String.eqb_spec s ""); [contradiction | reflexivity].
Qed.

Lemma eqb_empty s : s ≠ "" -> String.eqb s "" = false.
Proof. intros Hs. destruct (String.eqb_spec s ""); [contradiction | reflexivity]. Qed.

Lemma truthy_inv v : Js.truthy v = true -> ∃ s, v = Some s ∧ s ≠ "".
Proof.
  destruct v as [s|]; simpl; [|discriminate].
  destruct (String.eqb_spec s ""); [discriminate|]. eauto.
Qed.

Lemma own_property_truthy statute info :
  own_property INTERNATIONAL_STATUTES statute = Some info -> statute ≠ "".
Proof. intros H ->. vm_compute in H. discriminate. Qed.

Lemma own_property_getStatuteInfo statute info :
  own_property INTERNATIONAL_STATUTES statute = Some info ->
  getStatuteInfo statute = Some (Entry info).
Proof. intros H. unfold getStatuteInfo. by rewrite H. Qed.

Lemma missing_input_check s o c :
  missing_input s o c ->
  negb (Js.truthy s) || negb (Js.truthy o) || negb (Js.truthy c) = true.
Proof.
  intros [H | [H | H]]; rewrite H; simpl;
    rewrite ?orb_true_r; reflexivity.
Qed.

Lemma read_ids_store_violation v kv :
  read_violation_ids (store_violation v kv)
  = ViolationReport.id v :: read_violation_ids kv.
Proof. reflexivity. Qed.

Lemma get_store_violation v kv :
  get_violation (ViolationReport.id v) (store_violation v kv) = Some v.
Proof. unfold get_violation, store_violation; simpl. apply lookup_insert_eq. Qed.

Lemma get_store_violation_ne v kv id :
  id ≠ ViolationReport.id v ->
  get_violation id (store_violation v kv) = get_violation id kv.
Proof.
  intros Hne. unfold get_violation, store_violation; simpl.
  by apply lookup_insert_ne.
Qed.

(** A submission is received exactly when it builds a record, and then
    the binding is the old one with that record stored. *)
Lemma post_report_received env body kv violationId sev org kv' :
  post_report env (Some body) kv = (ReportReceived violationId sev org, kv') ->
  ∃ violation,
    submitted_record env body = Some violation
    ∧ ViolationReport.id violation = violationId
    ∧ ViolationReport.id violation = random_id env
    ∧ kv' = store_violation violation kv.
Proof.
  unfold post_report, submitted_record.
  destruct body as [s o c]; simpl.
  destruct (Js.truthy s), (Js.truthy o), (Js.truthy c); simpl; try discriminate.
  destruct (getStatuteInfo (default "" s)) as [info|]; simpl; [|discriminate].
  intros [= <- <- <- <-]. eexists; repeat split; reflexivity.
Qed.

Lemma post_report_rejected_store env body kv status error kv' :
  post_report env body kv = (ReportRejected status error, kv') -> kv' = kv.
Proof.
  unfold post_report. destruct body as [[s o c]|]; simpl; [|congruence].
  destruct (Js.truthy s), (Js.truthy o), (Js.truthy c); simpl; try congruence.
  destruct (getStatuteInfo (default "" s)); simpl; congruence.
Qed.

(** ** Submission *)

Lemma app_cons c (s b : string) : String c s ++ b = String c (s ++ b).
Proof. reflexivity. Qed.

Lemma prefix_app s b : String.prefix s (s ++ b) = true.
Proof.
  induction s as [|c s IH]; [destruct b; reflexivity|].
  rewrite app_cons. simpl.
  destruct (Ascii.ascii_dec c c); [assumption | contradiction].
Qed.

Lemma includes_here needle hay :
  String.prefix needle hay = true -> Js.includes needle hay = true.
Proof. intros H. destruct hay; simpl in *; rewrite H; reflexivity. Qed.

Lemma includes_app a s b : Js.includes s (a ++ s ++ b) = true.
Proof.
  induction a as [|c a IH].
  - change ("" ++ s ++ b) with (s ++ b). apply includes_here, prefix_app.
  - rewrite app_cons. simpl. rewrite IH. apply orb_true_r.
Qed.

(** A statute string for which the table lookup yields nothing is
    refused on both transports, the message quotes it, and the binding
    is left as it was. *)
Lemma unknown_statute_rejected env id statute org content kv :
  getStatuteInfo statute = None ->
  statute ≠ "" -> org ≠ "" -> content ≠ "" ->
  ∃ message message',
    post_report env (Some (request statute org content)) kv
      = (ReportRejected 400 message, kv)
    ∧ call_report_violation env id
        (Some (report_arguments (Some statute) (Some org) (Some content))) kv
      = (Json 400 (RpcFailure id (-32602) message'), kv)
    ∧ Js.includes statute message = true
    ∧ Js.includes statute message' = true.
Proof.
  intros Hnone Hs Ho Hc.
  unfold post_report, call_report_violation, request, report_arguments; simpl.
  rewrite !eqb_empty by assumption. simpl. rewrite Hnone.
  do 2 eexists. repeat split; apply includes_app.
Qed.

(** The lookup yields nothing exactly for the strings that are neither a
    key of the table nor a member of [Object.prototype]. *)
Lemma getStatuteInfo_None statute :
  getStatuteInfo statute = None
  <-> own_property INTERNATIONAL_STATUTES statute = None
      ∧ Js.is_prototype_member statute = false.
Proof.
  unfold getStatuteInfo.
  destruct (own_property INTERNATIONAL_STATUTES statute);
    [|destruct (Js.is_prototype_member statute)]; split; intros H;
    try discriminate; try (destruct H; discriminate); auto.
Qed.

(** C1, at a string that is not an article of the table: the statute
    ["constructor"] is found on [Object.prototype], so the submission is
    not refused.  Over REST it is acknowledged with status 200; over
    JSON-RPC the answer is the internal error -32603 raised while the
    result text is rendered.  On both transports the record is written
    beforehand, without description, severity or jurisdiction, and its
    id is put in front of the index. *)
Theorem constructor_statute_is_stored env id kv :
  let violation :=
    build_violation env "constructor" "X" "y" (Inherited "constructor") in
  own_property INTERNATIONAL_STATUTES "constructor" = None
  ∧ post_report env (Some (request "constructor" "X" "y")) kv
    = (ReportReceived (random_id env) None None, store_violation violation kv)
  ∧ (∃ message,
       call_report_violation env id
         (Some (report_arguments (Some "constructor") (Some "X") (Some "y"))) kv
       = (Json 500 (RpcFailure IdNull (-32603) message), store_violation violation kv))
  ∧ get_violation (random_id env) (store_violation violation kv) = Some violation
  ∧ Violation.severity (ViolationReport.violation violation) = None
  ∧ read_violation_ids (store_violation violation kv)
    = random_id env :: read_violation_ids kv.
Proof.
  intros violation.
  split; [reflexivity|]. split; [reflexivity|]. split; [by eexists|].
  split; [apply (get_store_violation violation)|]. split; reflexivity.
Qed.

(** The same for every member of [Object.prototype]. *)
Lemma inherited_statute_accepted env statute org content kv :
  Js.is_prototype_member statute = true ->
  org ≠ "" -> content ≠ "" ->
  own_property INTERNATIONAL_STATUTES statute = None
  ∧ post_report env (Some (request statute org content)) kv
    = (ReportReceived (random_id env) None None,
       store_violation
         (build_violation env statute org content (Inherited statute)) kv).
Proof.
  intros Hm Ho Hc.
  assert (Hown : own_property INTERNATIONAL_STATUTES statute = None
                 ∧ String.eqb statute "" = false).
  { apply bool_decide_eq_true in Hm. unfold Js.prototype_members in Hm.
    repeat (apply elem_of_cons in Hm as [->|Hm]; [split; reflexivity|]).
    by apply elem_of_nil in Hm. }
  destruct Hown as [Hown Hs]. split; [assumption|].
  assert (Hget : getStatuteInfo statute = Some (Inherited statute))
    by (unfold getStatuteInfo; by rewrite Hown, Hm).
  unfold post_report, request; simpl.
  rewrite Hs, !eqb_empty by assumption. simpl.
  by rewrite Hget.
Qed.

(** Once such a record is in the index, the aggregate view and every
    listing filtered by jurisdiction throw. *)
Lemma readers_throw_after_inherited_statute env now j limit offset :
  let kv := (post_report env (Some (request "toString" "X" "y")) empty_store).2 in
  j ≠ "" ->
  get_stats now kv = Js.Throw (Js.undefined_read "forEach")
  ∧ list_violations kv None (Some j) limit offset
    = Js.Throw (Js.undefined_read "includes").
Proof.
  intros kv Hj. subst kv.
  unfold get_stats, list_violations, fetch_violations. simpl.
  unfold get_violation; simpl. rewrite lookup_insert_eq. simpl.
  rewrite (eqb_empty j Hj). split; reflexivity.
Qed.

(** A REST body or an [arguments] object in which one of the three
    required inputs is absent or empty is refused as a validation error,
    with status 400 over REST and with code -32602 and status 400 over
    JSON-RPC, and the binding, records and index alike, is left as it
    was. *)
Lemma missing_input_rejected env id statute org content kv :
  missing_input statute org content ->
  post_report env
    (Some {| SimpleViolationRequest.statute := statute;
             SimpleViolationRequest.responsible_organization := org;
             SimpleViolationRequest.offending_content := content |}) kv
    = (ReportRejected 400 missing_fields, kv)
  ∧ call_report_violation env id (Some (report_arguments statute org content)) kv
    = (Json 400 (RpcFailure id (-32602) missing_fields), kv).
Proof.
  intros H. apply missing_input_check in H.
  unfold post_report, call_report_violation, report_arguments; simpl.
  rewrite H. split; reflexivity.
Qed.

Example missing_organization_rejected :
  missing_input (Some "Rome Statute Article 7") (Some "") None
  ∧ post_report env1
      (Some {| SimpleViolationRequest.statute := Some "Rome Statute Article 7";
               SimpleViolationRequest.responsible_organization := Some "";
               SimpleViolationRequest.offending_content := None |}) empty_store
    = (ReportRejected 400 missing_fields, empty_store).
Proof.
  split.
  - right; left; reflexivity.
  - apply (missing_input_rejected env1 IdNull (Some "Rome Statute Article 7")
             (Some "") None empty_store).
    right; left; reflexivity.
Qed.

(** C6, at a tool call that carries no [arguments] object, so that all
    three inputs are absent: the handler throws while destructuring,
    before its validation, and the answer is the internal error -32603
    with status 500 instead of the validation error -32602 with status
    400.  Nothing is written.  With an empty [arguments] object the
    answer is the validation error. *)
Theorem report_without_arguments_is_internal_error
    (JSON_stringify : RpcPayload -> string) env accept id kv :
  (∃ message,
     post_mcp JSON_stringify env accept (tool_call id "report_violation" None) kv
     = (Json 500 (RpcFailure IdNull (-32603) message), kv))
  ∧ post_mcp JSON_stringify env accept
      (tool_call id "report_violation" (Some (report_arguments None None None))) kv
    = (Json 400 (RpcFailure id (-32602) missing_fields), kv).
Proof. split; [by eexists | reflexivity]. Qed.

(** C7: a submission with the three inputs non-empty and the statute a
    key of the table builds a record whose [violation] carries the
    entry's description, severity and jurisdiction, and whose statute,
    organization and content are the inputs; both transports store that
    record and answer with it. *)
Theorem valid_submission_copies_entry env id statute org content info kv :
  own_property INTERNATIONAL_STATUTES statute = Some info ->
  org ≠ "" -> content ≠ "" ->
  ∃ violation,
    post_report env (Some (request statute org content)) kv
      = (ReportReceived (ViolationReport.id violation)
           (Some (StatuteInfo.severity info))
           (Some (StatuteInfo.organization info)),
         store_violation violation kv)
    ∧ call_report_violation env id
        (Some (report_arguments (Some statute) (Some org) (Some content))) kv
      = (Json 200 (RpcSuccess id (ToolResult
           (ReportedText violation (Some (StatuteInfo.organization info))
              (String.concat ", " (StatuteInfo.jurisdiction info))))),
         store_violation violation kv)
    ∧ Violation.description (ViolationReport.violation violation)
      = Some (StatuteInfo.description info)
    ∧ Violation.severity (ViolationReport.violation violation)
      = Some (StatuteInfo.severity info)
    ∧ Violation.jurisdiction (ViolationReport.violation violation)
      = Some (StatuteInfo.jurisdiction info)
    ∧ ViolationReport.statute violation = statute
    ∧ ViolationReport.responsibleOrganization violation = org
    ∧ ViolationReport.offendingContent violation = content.
Proof.
  intros Hown Ho Hc.
  pose proof (own_property_truthy _ _ Hown) as Hs.
  exists (build_violation env statute org content (Entry info)).
  unfold post_report, call_report_violation, request, report_arguments; simpl.
  rewrite !eqb_empty by assumption. simpl.
  rewrite (own_property_getStatuteInfo _ _ Hown). simpl.
  repeat split.
Qed.

Lemma valid_submission_copies_entry_witness :
  own_property INTERNATIONAL_STATUTES "Rome Statute Article 7" = Some rome7
  ∧ "TestAI" ≠ "" ∧ "x" ≠ ""
  ∧ ∃ violation,
      post_report env1 (Some (request "Rome Statute Article 7" "TestAI" "x")) empty_store
      = (ReportReceived (ViolationReport.id violation) (Some CRITICAL) (Some "ICC"),
         store_violation violation empty_store)
      ∧ Violation.jurisdiction (ViolationReport.violation violation)
        = Some ["INTERNATIONAL"; "ICC"].
Proof.
  assert (H1 : own_property INTERNATIONAL_STATUTES "Rome Statute Article 7" = Some rome7)
    by reflexivity.
  assert (H2 : "TestAI" ≠ "") by discriminate.
  assert (H3 : "x" ≠ "") by discriminate.
  repeat split; try assumption.
  destruct (valid_submission_copies_entry env1 IdNull "Rome Statute Article 7"
              "TestAI" "x" rome7 empty_store H1 H2 H3)
    as (violation & Hrest & _ & _ & _ & Hj & _).
  exists violation. split; assumption.
Defined.



(** The same over JSON-RPC: the record printed in the tool result is the
    one a read by id finds afterwards. *)
Lemma get_by_id_after_tool_call env id args kv violation org j kv' :
  call_report_violation env id (Some args) kv
    = (Json 200 (RpcSuccess id (ToolResult (ReportedText violation org j))), kv') ->
  get_violation_by_id (ViolationReport.id violation) kv' = Found violation.
Proof.
  unfold call_report_violation.
  destruct (_ || _); [discriminate|].
  destruct (getStatuteInfo _) as [info|]; [|discriminate].
  destruct (Js.member _ _); [|destruct e; discriminate].
  intros [= <- _ _ <-].
  unfold get_violation_by_id. rewrite get_store_violation. reflexivity.
Qed.

(** ** Listing *)

(** On indices that are natural numbers, [slice(offset, offset + limit)]
    drops [offset] elements and keeps the next [limit]. *)
Lemma slice_take_drop {A} (l : list A) (offset limit : nat) :
  Js.slice l (Some (Z.of_nat offset)) (Js.add (Some (Z.of_nat offset)) (Some (Z.of_nat limit)))
  = take limit (drop offset l).
Proof.
  unfold Js.slice, Js.add, Js.to_integer, Js.relative_index; simpl.
  destruct (Z.ltb_spec (Z.of_nat offset) 0) as [?|_]; [lia|].
  destruct (Z.ltb_spec (Z.of_nat offset + Z.of_nat limit) 0) as [?|_]; [lia|].
  destruct (decide (offset ≤ length l)%nat) as [Hle|Hgt].
  - replace (Z.to_nat (Z.of_nat offset `min` Z.of_nat (length l))) with offset by lia.
    destruct (decide (limit ≤ length l - offset)%nat) as [Hl|Hl].
    + f_equal. lia.
    + rewrite !take_ge; [reflexivity | |]; rewrite length_drop; lia.
  - rewrite !drop_ge by lia. by rewrite !take_nil.
Qed.


Lemma filter_jurisdiction_well_formed j l :
  Forall well_formed l ->
  filter_jurisdiction j l
  = Js.Return (filter (fun v => bool_decide (j ∈ jurisdictions v) = true) l).
Proof.
  induction 1 as [|v l (_ & _ & [js Hjs]) _ IH]; [reflexivity|].
  simpl. rewrite Hjs, IH. simpl.
  rewrite filter_cons.
  assert (Hv : jurisdictions v = js) by (unfold jurisdictions; by rewrite Hjs).
  rewrite Hv.
  destruct (decide (bool_decide (j ∈ js) = true)) as [->|Hn]; [reflexivity|].
  apply not_true_is_false in Hn. by rewrite Hn.
Qed.

Lemma filter_filter_selected (P Q : ViolationReport.t -> bool)
    (l : list ViolationReport.t) :
  filter (fun v => Q v = true) (filter (fun v => P v = true) l)
  = filter (fun v => P v && Q v = true) l.
Proof.
  induction l as [|v l IH]; [reflexivity|].
  rewrite !filter_cons.
  destruct (P v) eqn:HP; simpl.
  - destruct (decide (true = true)); [|congruence].
    rewrite filter_cons, IH. destruct (Q v); reflexivity.
  - destruct (decide (false = true)); [congruence|]. exact IH.
Qed.

Lemma filter_true (l : list ViolationReport.t) (P : ViolationReport.t -> bool) :
  (∀ v, P v = true) -> filter (fun v => P v = true) l = l.
Proof.
  intros HP. induction l as [|v l IH]; [reflexivity|].
  rewrite filter_cons, IH. destruct (decide (P v = true)) as [|Hn]; [reflexivity|].
  destruct Hn. apply HP.
Qed.

Lemma filter_ext_bool (P Q : ViolationReport.t -> bool)
    (l : list ViolationReport.t) :
  (∀ v, P v = Q v) ->
  filter (fun v => P v = true) l = filter (fun v => Q v = true) l.
Proof.
  intros H. induction l as [|v l IH]; [reflexivity|].
  rewrite !filter_cons, IH, H. reflexivity.
Qed.

(** The test of the severity filter, [v.violation.severity === severity],
    holds exactly for the records of that severity. *)
Lemma severity_is_spec severity v :
  severity_is severity v = has_severity severity v.
Proof.
  unfold severity_is, has_severity.
  assert (Hname : ∀ name : string,
            bool_decide (Some name = Some severity) = String.eqb severity name).
  { intros name. destruct (String.eqb_spec severity name) as [->|Hne].
    - by apply bool_decide_eq_true_2.
    - apply bool_decide_eq_false_2. congruence. }
  destruct (Violation.severity (ViolationReport.violation v)) as [[]|];
    [apply Hname .. |].
  apply bool_decide_eq_false_2. discriminate.
Qed.

(** The filtering step keeps exactly the records that [selected] keeps;
    the jurisdiction filter needs the records to carry their
    [violation] fields. *)
Lemma filtering_selects severity jurisdiction (l : list ViolationReport.t) :
  (Js.truthy jurisdiction = true -> Forall well_formed l) ->
  (if Js.truthy jurisdiction
   then filter_jurisdiction (default "" jurisdiction)
          (if Js.truthy severity
           then filter (fun v => severity_is (default "" severity) v = true) l
           else l)
   else Js.Return
          (if Js.truthy severity
           then filter (fun v => severity_is (default "" severity) v = true) l
           else l))
  = Js.Return (filter (fun v => selected severity jurisdiction v = true) l).
Proof.
  intros Hwf.
  destruct (Js.truthy jurisdiction) eqn:Hj.
  - specialize (Hwf eq_refl).
    assert (Hsev : Forall well_formed
              (if Js.truthy severity
               then filter (fun v => severity_is (default "" severity) v = true) l
               else l)).
    { destruct (Js.truthy severity); [|assumption].
      apply Forall_forall. intros v Hv. apply list_elem_of_filter in Hv as [_ Hv].
      revert v Hv. by apply Forall_forall. }
    rewrite filter_jurisdiction_well_formed by assumption. f_equal.
    apply truthy_inv in Hj as (j & -> & Hj). simpl.
    destruct (Js.truthy severity) eqn:Hs.
    + apply truthy_inv in Hs as (s & -> & Hs). simpl.
      rewrite filter_filter_selected. apply filter_ext_bool. intros v.
      unfold selected, jurisdictions. by rewrite <- severity_is_spec, !eqb_empty.
    + apply filter_ext_bool. intros v. unfold selected, jurisdictions.
      rewrite (eqb_empty j) by assumption. simpl.
      destruct severity as [s|]; [|reflexivity].
      simpl in Hs. apply negb_false_iff in Hs. by rewrite Hs.
  - clear Hwf. f_equal.
    assert (Hjur : ∀ v,
      match jurisdiction with
      | Some j => String.eqb j "" || bool_decide (j ∈ jurisdictions v)
      | None => true
      end = true).
    { intros v. destruct jurisdiction as [j|]; [|reflexivity].
      simpl in Hj. apply negb_false_iff in Hj. by rewrite Hj. }
    destruct (Js.truthy severity) eqn:Hs.
    + apply truthy_inv in Hs as (s & -> & Hs). simpl.
      apply filter_ext_bool. intros v. unfold selected.
      fold (jurisdictions v). rewrite Hjur, eqb_empty by assumption.
      simpl. by rewrite andb_true_r, severity_is_spec.
    + symmetry. apply filter_true. intros v. unfold selected.
      fold (jurisdictions v). rewrite Hjur, andb_true_r.
      destruct severity as [s|]; [|reflexivity].
      simpl in Hs. apply negb_false_iff in Hs. by rewrite Hs.
Qed.

(** C5: a query with natural numbers [limit] and [offset] answers with
    the fetched records that pass the severity filter (exact match) and
    the jurisdiction filter (membership in the record's list), cut to
    the positions [offset, offset + limit); [total] is the number of
    records that pass the filters, and [hasMore] tells whether
    [offset + limit < total].  When a jurisdiction filter is given, the
    fetched records are required to carry their [violation] fields, as
    the [ViolationReport] interface declares. *)
Theorem query_filters_then_slices kv severity jurisdiction (limit offset : nat) :
  (Js.truthy jurisdiction = true -> Forall well_formed (fetch_violations kv)) ->
  let filtered :=
    filter (fun v => selected severity jurisdiction v = true) (fetch_violations kv) in
  list_violations kv severity jurisdiction
    (Some (Z.of_nat limit)) (Some (Z.of_nat offset))
  = Js.Return
      {| ViolationsPage.violations := take limit (drop offset filtered);
         ViolationsPage.total := length filtered;
         ViolationsPage.hasMore := bool_decide (offset + limit < length filtered)%nat |}.
Proof.
  intros Hwf filtered. unfold list_violations. cbv zeta.
  rewrite (filtering_selects severity jurisdiction _ Hwf). fold filtered.
  simpl. f_equal. f_equal.
  - apply (slice_take_drop filtered offset limit).
  - destruct (Z.ltb_spec (Z.of_nat offset + Z.of_nat limit) (Z.of_nat (length filtered)));
      [rewrite bool_decide_eq_true_2 | rewrite bool_decide_eq_false_2];
      auto; lia.
Qed.

Lemma kv_two_well_formed : Forall well_formed (fetch_violations kv_two).
Proof.
  vm_compute fetch_violations.
  repeat constructor; eexists; reflexivity.
Qed.

Lemma query_filters_then_slices_witness :
  Forall well_formed (fetch_violations kv_two)
  ∧ list_violations kv_two (Some "HIGH") (Some "IAEA") (Some 1%Z) (Some 0%Z)
    = Js.Return
        {| ViolationsPage.violations :=
             [build_violation env2 "INFCIRC/540" "Gemini" "enrichment question"
                (default (Inherited "") (getStatuteInfo "INFCIRC/540"))];
           ViolationsPage.total := 1;
           ViolationsPage.hasMore := false |}.
Proof.
  split; [exact kv_two_well_formed|].
  etrans.
  - exact (query_filters_then_slices kv_two (Some "HIGH") (Some "IAEA") 1 0
             (fun _ => kv_two_well_formed)).
  - vm_compute. reflexivity.
Defined.

(** With a negative [offset] the page is counted from the end of the
    filtered sequence. *)
Example negative_offset_counts_from_end :
  ViolationsPage.violations <$>
    (match list_violations kv_two None None (Some 50%Z) (Some (-1)%Z) with
     | Js.Return page => Some page
     | Js.Throw _ => None
     end)
  = Some [build_violation env1 "Rome Statute Article 7" "TestAI" "x" (Entry rome7)].
Proof. vm_compute. reflexivity. Qed.

(** *** Submissions, then a listing *)

Lemma omap_ext_in {A B} (f g : A -> option B) (l : list A) :
  (∀ x, x ∈ l -> f x = g x) -> omap f l = omap g l.
Proof.
  induction l as [|x l IH]; intros H; [reflexivity|].
  assert (IH' : omap f l = omap g l).
  { apply IH. intros y Hy. apply H. by right. }
  cbn [omap list_omap]. rewrite (H x) by left.
  fold (omap f l) (omap g l). by rewrite IH'.
Qed.

Lemma fetch_store_violation v kv :
  ViolationReport.id v ∉ read_violation_ids kv ->
  fetch_violations (store_violation v kv) = v :: fetch_violations kv.
Proof.
  intros Hfresh. unfold fetch_violations.
  rewrite read_ids_store_violation. simpl.
  rewrite get_store_violation. f_equal.
  apply omap_ext_in. intros id Hid. apply get_store_violation_ne.
  intros ->. contradiction.
Qed.

(** Each acknowledged submission puts its id in front of the index. *)
Lemma received_prepends_id env body kv violationId sev org kv' :
  post_report env (Some body) kv = (ReportReceived violationId sev org, kv') ->
  violationId = random_id env
  ∧ read_violation_ids kv' = violationId :: read_violation_ids kv.
Proof.
  intros H. apply post_report_received in H as (v & _ & <- & Hid & ->).
  split; [assumption | apply read_ids_store_violation].
Qed.


Lemma fetch_foldl_store (records : list ViolationReport.t) kv :
  NoDup (ViolationReport.id <$> records) ->
  (∀ v, v ∈ records -> ViolationReport.id v ∉ read_violation_ids kv) ->
  fetch_violations (foldl (fun kv v => store_violation v kv) kv records)
  = (reverse records ++ fetch_violations kv)%list.
Proof.
  revert kv. induction records as [|v records IH]; intros kv Hnd Hfresh.
  - reflexivity.
  - simpl. apply NoDup_cons in Hnd as [Hv Hnd].
    rewrite IH.
    + rewrite fetch_store_violation by (apply Hfresh; left).
      rewrite reverse_cons, <- app_assoc. reflexivity.
    + assumption.
    + intros w Hw. rewrite read_ids_store_violation.
      apply not_elem_of_cons. split.
      * intros Heq. apply Hv. rewrite <- Heq. by apply list_elem_of_fmap_2.
      * apply Hfresh. by right.
Qed.

Lemma read_ids_foldl_store (records : list ViolationReport.t) kv :
  read_violation_ids (foldl (fun kv v => store_violation v kv) kv records)
  = (reverse (ViolationReport.id <$> records) ++ read_violation_ids kv)%list.
Proof.
  revert kv. induction records as [|v records IH]; intros kv; [reflexivity|].
  simpl. rewrite IH, read_ids_store_violation, reverse_cons, <- app_assoc.
  reflexivity.
Qed.



(** *** Ids without a record *)

Lemma fetch_length_present kv :
  length (fetch_violations kv) = length (present_ids kv).
Proof.
  unfold fetch_violations, present_ids, get_violation.
  induction (read_violation_ids kv) as [|id ids IH]; [reflexivity|].
  simpl. rewrite filter_cons.
  destruct (violations kv !! id) as [v|] eqn:Hv; simpl.
  - destruct (decide (is_Some (Some v))) as [_|Hn]; [simpl; f_equal; exact IH|].
    destruct Hn. by eexists.
  - destruct (decide (is_Some (@None ViolationReport.t))) as [[? ?]|_]; [discriminate|].
    exact IH.
Qed.

Lemma present_lt_of_dangling kv id :
  id ∈ read_violation_ids kv ->
  violations kv !! id = None ->
  (length (present_ids kv) < length (read_violation_ids kv))%nat.
Proof.
  unfold present_ids.
  induction (read_violation_ids kv) as [|id' ids IH]; intros Hin Hnone.
  - by apply elem_of_nil in Hin.
  - rewrite filter_cons. simpl.
    pose proof (length_filter (fun id => is_Some (violations kv !! id)) ids) as Hle.
    apply elem_of_cons in Hin as [<-|Hin].
    + rewrite Hnone.
      destruct (decide (is_Some (@None ViolationReport.t))) as [[? ?]|_];
        [discriminate|]. lia.
    + specialize (IH Hin Hnone).
      destruct (decide (is_Some (violations kv !! id'))); simpl; lia.
Qed.

Lemma count_jurisdictions_well_formed acc l :
  Forall well_formed l ->
  count_jurisdictions acc l
  = Js.Return (foldl Js.increment acc (flat_map jurisdictions l)).
Proof.
  intros H. revert acc. induction H as [|v l (_ & _ & [js Hjs]) _ IH]; intros acc.
  - reflexivity.
  - simpl. rewrite Hjs. simpl. rewrite IH, foldl_app.
    unfold jurisdictions at 2. by rewrite Hjs.
Qed.

(** C9: when the index holds an id without a record, on a binding whose
    fetched records carry their [violation] fields, neither the listing
    nor the aggregate view throws; both skip the id and report as
    [total] the number of ids of the index that have a record, which is
    less than the length of the index. *)
Theorem dangling_id_is_skipped kv id now limit offset :
  id ∈ read_violation_ids kv ->
  violations kv !! id = None ->
  Forall well_formed (fetch_violations kv) ->
  (∃ page,
     list_violations kv None None limit offset = Js.Return page
     ∧ ViolationsPage.total page = length (present_ids kv))
  ∧ (∃ stats,
       get_stats now kv = Js.Return stats
       ∧ ViolationStats.total stats = length (present_ids kv))
  ∧ (length (present_ids kv) < length (read_violation_ids kv))%nat.
Proof.
  intros Hin Hnone Hwf. repeat split.
  - eexists. split; [reflexivity|]. simpl. apply fetch_length_present.
  - unfold get_stats. rewrite count_jurisdictions_well_formed by assumption.
    eexists. split; [reflexivity|]. simpl. apply fetch_length_present.
  - by eapply present_lt_of_dangling.
Qed.

Lemma dangling_id_is_skipped_witness :
  "gone" ∈ read_violation_ids kv_dangling
  ∧ reported_total (list_violations kv_dangling None None (Some 50%Z) (Some 0%Z))
    = Some 2
  ∧ length (read_violation_ids kv_dangling) = 3.
Proof.
  assert (Hin : "gone" ∈ read_violation_ids kv_dangling)
    by (apply (bool_decide_unpack _); vm_compute; exact I).
  assert (Hnone : violations kv_dangling !! "gone" = None) by reflexivity.
  assert (Hwf : Forall well_formed (fetch_violations kv_dangling)).
  { vm_compute fetch_violations. repeat constructor; eexists; reflexivity. }
  destruct (dangling_id_is_skipped kv_dangling "gone" 0%Z (Some 50%Z) (Some 0%Z)
              Hin Hnone Hwf) as ((page & Hpage & Htotal) & _ & _).
  split; [exact Hin | split; [|reflexivity]].
  rewrite Hpage. simpl. rewrite Htotal. reflexivity.
Defined.

(** *** Defaults of the query string *)

(** C10: a listing without [limit] is the listing with [limit=50], a
    listing without [offset] is the listing with [offset=0], and the
    [total] reported depends on the two filters only, not on [limit] or
    [offset], given or not. *)
Theorem pagination_defaults kv limit offset limit' offset' severity jurisdiction :
  let query := ViolationsQuery.mk in
  get_violations (query None offset severity jurisdiction) kv
    = get_violations (query (Some "50") offset severity jurisdiction) kv
  ∧ get_violations (query limit None severity jurisdiction) kv
    = get_violations (query limit (Some "0") severity jurisdiction) kv
  ∧ get_violations (query None None severity jurisdiction) kv
    = list_violations kv severity jurisdiction (Some 50%Z) (Some 0%Z)
  ∧ reported_total (get_violations (query limit offset severity jurisdiction) kv)
    = reported_total (get_violations (query limit' offset' severity jurisdiction) kv).
Proof.
  intros query. repeat split.
  unfold get_violations, list_violations; simpl.
  destruct (if Js.truthy jurisdiction then _ else _); reflexivity.
Qed.

(** ** Aggregation *)

Lemma prototype_member_not_proto k :
  Js.is_prototype_member k = false -> String.eqb k "__proto__" = false.
Proof.
  intros H. destruct (String.eqb_spec k "__proto__") as [->|]; [|reflexivity].
  vm_compute in H. discriminate.
Qed.

Lemma increment_lookup_ne acc k k' :
  k ≠ k' -> Js.increment acc k' !! k = acc !! k.
Proof.
  intros Hne. unfold Js.increment.
  destruct (String.eqb k' "__proto__"); [reflexivity|].
  destruct (acc !! k') as [[n|src ones]|]; [| |destruct (Js.is_prototype_member k')];
    by rewrite lookup_insert_ne.
Qed.

Lemma increment_lookup_counted acc k n :
  Js.is_prototype_member k = false ->
  acc !! k = counted n ->
  Js.increment acc k !! k = counted (S n).
Proof.
  intros Hk Hacc. unfold Js.increment.
  rewrite (prototype_member_not_proto k Hk), Hacc, Hk.
  destruct n as [|n]; simpl; rewrite lookup_insert_eq; [reflexivity|].
  do 2 f_equal. lia.
Qed.

(** Counting in an accumulator is exact at every key that is not a
    member of [Object.prototype]. *)
Lemma foldl_increment_counted keys acc k n :
  Js.is_prototype_member k = false ->
  acc !! k = counted n ->
  foldl Js.increment acc keys !! k = counted (n + occurrences k keys).
Proof.
  intros Hk. revert acc n. induction keys as [|k' keys IH]; intros acc n Hacc.
  - simpl. by rewrite Nat.add_0_r.
  - simpl. unfold occurrences. rewrite filter_cons.
    destruct (decide (k' = k)) as [->|Hne].
    + rewrite (IH _ (S n)) by (by apply increment_lookup_counted).
      unfold occurrences. simpl. rewrite Nat.add_succ_r. reflexivity.
    + rewrite (IH _ n); [reflexivity|].
      rewrite increment_lookup_ne by congruence. assumption.
Qed.

Lemma count_by_keys key (l : list ViolationReport.t) acc :
  foldl (fun acc v => Js.increment acc (key v)) acc l
  = foldl Js.increment acc (key <$> l).
Proof.
  revert acc. induction l as [|v l IH]; intros acc; [reflexivity|].
  rewrite fmap_cons. simpl. apply IH.
Qed.

Lemma recent_counts now (l : list ViolationReport.t) :
  recent now l
  = length (filter (fun v => (now - 86400000 < ViolationReport.timestamp v)%Z) l).
Proof.
  unfold recent. f_equal.
  induction l as [|v l IH]; [reflexivity|].
  rewrite !filter_cons, IH.
  change DAY_MS with 86400000%Z.
  destruct (Z.ltb_spec (now - 86400000) (ViolationReport.timestamp v)) as [Hlt|Hge].
  - rewrite decide_True by reflexivity. by rewrite decide_True.
  - rewrite decide_False by discriminate. rewrite decide_False; [reflexivity | lia].
Qed.

(** The aggregate view on records that carry their [violation] fields:
    it does not throw, [total] is the number of fetched records, each of
    the three dictionaries is exact at every key that is not a member of
    [Object.prototype] (one increment per jurisdiction entry for
    [byJurisdiction]), and [recent24h] counts the records stamped
    strictly after [now] minus 24 hours. *)
Lemma stats_counts kv now k :
  Forall well_formed (fetch_violations kv) ->
  Js.is_prototype_member k = false ->
  ∃ stats,
    get_stats now kv = Js.Return stats
    ∧ ViolationStats.total stats = length (fetch_violations kv)
    ∧ ViolationStats.bySeverity stats !! k
      = counted (occurrences k (severity_key <$> fetch_violations kv))
    ∧ ViolationStats.byJurisdiction stats !! k
      = counted (occurrences k (flat_map jurisdictions (fetch_violations kv)))
    ∧ ViolationStats.byAiTool stats !! k
      = counted (occurrences k
                   (ViolationReport.responsibleOrganization <$> fetch_violations kv))
    ∧ ViolationStats.recent24h stats
      = length (filter (fun v => (now - 86400000 < ViolationReport.timestamp v)%Z)
                  (fetch_violations kv)).
Proof.
  intros Hwf Hk. unfold get_stats.
  rewrite count_jurisdictions_well_formed by assumption.
  eexists. split; [reflexivity|]. simpl.
  unfold count_by. rewrite !count_by_keys.
  split; [reflexivity|].
  split; [by apply (foldl_increment_counted _ ∅ k 0)|].
  split; [by apply (foldl_increment_counted _ ∅ k 0)|].
  split; [by apply (foldl_increment_counted _ ∅ k 0)|].
  apply recent_counts.
Qed.

(** C2, at a record whose organization is named like a member of
    [Object.prototype]: after one valid submission by an organization
    called ["constructor"], the aggregate view reports [total] 1, but
    the [byAiTool] entry for that organization is not the number 1: the
    accumulator read found the inherited [constructor], and adding 1 to
    it made a string. *)
Theorem organization_named_constructor_is_miscounted env now :
  let kv :=
    (post_report env
       (Some (request "Rome Statute Article 7" "constructor" "x")) empty_store).2 in
  Forall well_formed (fetch_violations kv)
  ∧ ∃ stats,
      get_stats now kv = Js.Return stats
      ∧ ViolationStats.total stats = 1
      ∧ ViolationStats.bySeverity stats !! "CRITICAL" = Some (Js.Count 1)
      ∧ ViolationStats.byAiTool stats !! "constructor"
        = Some (Js.Text "constructor" 1)
      ∧ ViolationStats.byAiTool stats !! "constructor" ≠ counted 1.
Proof.
  intros kv. subst kv.
  assert (Hfetch :
    fetch_violations
      (post_report env
         (Some (request "Rome Statute Article 7" "constructor" "x")) empty_store).2
    = [build_violation env "Rome Statute Article 7" "constructor" "x" (Entry rome7)]).
  { unfold fetch_violations, get_violation. simpl. by rewrite lookup_insert_eq. }
  unfold get_stats. rewrite Hfetch. split.
  - repeat constructor; eexists; reflexivity.
  - eexists. split; [reflexivity|]. repeat split. discriminate.
Qed.

(** The entry keeps growing as text, and an organization called
    ["__proto__"] gets no entry at all. *)
Example inherited_names_in_accumulator :
  count_by ViolationReport.responsibleOrganization
    (fetch_violations
       (submit_all
          [(env1, request "Rome Statute Article 7" "toString" "x");
           (env2, request "INFCIRC/540" "toString" "y")] empty_store).2)
    !! "toString" = Some (Js.Text "toString" 2)
  ∧ count_by ViolationReport.responsibleOrganization
      (fetch_violations
         (post_report env1
            (Some (request "Rome Statute Article 7" "__proto__" "x")) empty_store).2)
    = ∅.
Proof. split; vm_compute; reflexivity. Qed.

(** ** Framing of JSON-RPC responses *)

(** Every answer to [tools/call] is a plain JSON body, whatever the
    [Accept] header. *)
Lemma tools_call_is_json env id params kv :
  ∃ status payload, (tools_call env id params kv).1 = Json status payload.
Proof.
  unfold tools_call.
  destruct (negb _); [by do 2 eexists|].
  destruct (String.eqb _ "report_violation").
  { unfold call_report_violation.
    destruct (params ≫= RpcParams.arguments) as [args|]; [|by do 2 eexists].
    destruct (_ || _); [by do 2 eexists|].
    destruct (getStatuteInfo _); [|by do 2 eexists].
    destruct (Js.member _ _); by do 2 eexists. }
  destruct (String.eqb _ "list_statutes"); [by do 2 eexists|].
  destruct (String.eqb _ "get_violation_stats"); [by do 2 eexists|].
  destruct (String.eqb _ "list_violations"); [|by do 2 eexists].
  unfold call_list_violations.
  destruct (params ≫= RpcParams.arguments) as [args|]; [|by do 2 eexists].
  simpl. destruct (_ =? 0)%nat; by do 2 eexists.
Qed.

Section Framing.

Variable JSON_stringify : RpcPayload -> string.

(** With an [Accept] header naming [text/event-stream], the answers to
    [initialize] and [tools/list] and the invalid-envelope error are
    one [event: message] frame around the serialized response. *)
Lemma framed_when_streaming env accept body kv :
  wants_stream accept = true ->
  (valid_envelope body = false ->
   post_mcp JSON_stringify env accept body kv
   = (EventStream
        (sse_frame JSON_stringify
           (RpcFailure (id_or_null (RpcRequest.id body)) (-32600)
              "Invalid Request - must be JSON-RPC 2.0 format")), kv))
  ∧ (valid_envelope body = true ->
     RpcRequest.method body = Some "initialize" ->
     ∃ response,
       post_mcp JSON_stringify env accept body kv
       = (EventStream (sse_frame JSON_stringify response), kv))
  ∧ (valid_envelope body = true ->
     RpcRequest.method body = Some "tools/list" ->
     ∃ response,
       post_mcp JSON_stringify env accept body kv
       = (EventStream (sse_frame JSON_stringify response), kv)).
Proof.
  intros Hs. unfold post_mcp, sendMcpResponse. rewrite Hs.
  repeat split.
  - by intros ->.
  - intros -> ->. by eexists.
  - intros -> ->. by eexists.
Qed.

Lemma tools_call_never_framed env accept body kv :
  valid_envelope body = true ->
  RpcRequest.method body = Some "tools/call" ->
  ∃ status payload,
    (post_mcp JSON_stringify env accept body kv).1 = Json status payload.
Proof.
  intros Hv Hm. unfold post_mcp. rewrite Hv, Hm. simpl.
  apply tools_call_is_json.
Qed.

(** C3, at a [tools/call] request: with an [Accept] header naming
    [text/event-stream], [initialize] is answered as an event-stream
    frame, but the tool call is answered with the plain JSON body, not
    with a frame. *)
Theorem tool_call_ignores_event_stream env id kv :
  let accept := Some "application/json, text/event-stream" in
  wants_stream accept = true
  ∧ valid_envelope (tool_call id "list_statutes" None) = true
  ∧ post_mcp JSON_stringify env accept (initialize_call id) kv
    = (EventStream
         (sse_frame JSON_stringify (RpcSuccess id (InitializeResult "2024-11-05"))),
       kv)
  ∧ post_mcp JSON_stringify env accept (tool_call id "list_statutes" None) kv
    = (Json 200 (RpcSuccess id (ToolResult (StatutesText getAllStatutes))), kv).
Proof. repeat split. Qed.

End Framing.

(** ** The registry, listed and looked up *)

Lemma own_property_elem table statute info :
  own_property table statute = Some info -> (statute, info) ∈ table.
Proof.
  induction table as [|[key i] table IH]; [discriminate|].
  simpl. destruct (String.eqb_spec key statute) as [->|_].
  - intros [= ->]. left.
  - intros H. right. by apply IH.
Qed.

Lemma keys_are_articles :
  Forall (fun entry => StatuteInfo.article entry.2 = entry.1) INTERNATIONAL_STATUTES.
Proof. repeat constructor. Qed.

Lemma listed_statute_own info :
  info ∈ getAllStatutes ->
  own_property INTERNATIONAL_STATUTES (StatuteInfo.article info) = Some info.
Proof.
  intros Hin. unfold getAllStatutes, INTERNATIONAL_STATUTES in Hin.
  rewrite !fmap_cons in Hin. cbn [snd fmap list_fmap] in Hin.
  repeat (apply elem_of_cons in Hin as [->|Hin]; [vm_compute; reflexivity|]).
  by apply elem_of_nil in Hin.
Qed.

(** The lookup finds an entry of the table under [statute] exactly when
    the listing contains an entry whose article is [statute], and then
    it is that entry: the table is keyed by article, without
    duplicates. *)
Theorem statute_lookup_iff_listed statute info :
  getStatuteInfo statute = Some (Entry info)
  <-> info ∈ getAllStatutes ∧ StatuteInfo.article info = statute.
Proof.
  split.
  - unfold getStatuteInfo.
    destruct (own_property INTERNATIONAL_STATUTES statute) as [i|] eqn:Hown;
      [|destruct (Js.is_prototype_member statute); discriminate].
    intros [= ->]. apply own_property_elem in Hown.
    split.
    + unfold getAllStatutes. apply list_elem_of_fmap. by exists (statute, info).
    + pose proof keys_are_articles as Hkeys.
      rewrite Forall_forall in Hkeys. exact (Hkeys _ Hown).
  - intros [Hin <-]. apply own_property_getStatuteInfo. by apply listed_statute_own.
Qed.

Lemma post_report_entry env statute org content info kv :
  own_property INTERNATIONAL_STATUTES statute = Some info ->
  org ≠ "" -> content ≠ "" ->
  post_report env (Some (request statute org content)) kv
  = (ReportReceived (random_id env) (Some (StatuteInfo.severity info))
       (Some (StatuteInfo.organization info)),
     store_violation (build_violation env statute org content (Entry info)) kv).
Proof.
  intros Hown Ho Hc. pose proof (own_property_truthy _ _ Hown) as Hs.
  unfold post_report, request; simpl.
  rewrite !eqb_empty by assumption. simpl.
  by rewrite (own_property_getStatuteInfo _ _ Hown).
Qed.

(** Every article that the listings offer (the [enum] of the stdio tool
    schema, the articles of [GET /api/statutes] and of [list_statutes])
    is accepted as the statute of a submission with non-empty
    organization and content, on the REST route and by the stdio tool
    alike, and the record stored has a severity. *)
Theorem offered_statute_is_accepted env statute org content kv store :
  statute ∈ statute_enum ->
  org ≠ "" -> content ≠ "" ->
  statute_enum = StatuteSummary.article <$> get_statutes
  ∧ ∃ info violation,
      info ∈ getAllStatutes
      ∧ violation = build_violation env statute org content (Entry info)
      ∧ post_report env (Some (request statute org content)) kv
        = (ReportReceived (random_id env) (Some (StatuteInfo.severity info))
             (Some (StatuteInfo.organization info)),
           store_violation violation kv)
      ∧ stdio_call_tool env "report_violation"
          (Some (report_arguments (Some statute) (Some org) (Some content))) store
        = (inr (ReportedText violation (Some (StatuteInfo.organization info))
                  (String.concat ", " (StatuteInfo.jurisdiction info))),
           ViolationStore.addViolation violation store).
Proof.
  intros Hin Ho Hc. split; [reflexivity|].
  unfold statute_enum in Hin. apply list_elem_of_fmap in Hin as (info & -> & Hin).
  pose proof (listed_statute_own info Hin) as Hown.
  pose proof (own_property_truthy _ _ Hown) as Hs.
  exists info, (build_violation env (StatuteInfo.article info) org content (Entry info)).
  split; [assumption|]. split; [reflexivity|]. split.
  - by apply post_report_entry.
  - unfold stdio_call_tool, report_arguments; simpl.
    rewrite !eqb_empty by assumption. simpl.
    by rewrite (own_property_getStatuteInfo _ _ Hown).
Qed.

Lemma offered_statute_is_accepted_witness :
  "INFCIRC/540" ∈ statute_enum
  ∧ ∃ violation,
      post_report env2 (Some (request "INFCIRC/540" "Gemini" "enrichment question"))
        empty_store
      = (ReportReceived "p7m2c4d8wyz" (Some HIGH) (Some "IAEA"),
         store_violation violation empty_store).
Proof.
  assert (Hin : "INFCIRC/540" ∈ statute_enum)
    by (apply (bool_decide_unpack _); vm_compute; exact I).
  assert (Ho : "Gemini" ≠ "") by discriminate.
  assert (Hc : "enrichment question" ≠ "") by discriminate.
  split; [exact Hin|].
  destruct (offered_statute_is_accepted env2 "INFCIRC/540" "Gemini"
              "enrichment question" empty_store ViolationStore.empty Hin Ho Hc)
    as (_ & info & violation & Hinfo & _ & Hpost & _).
  exists violation. rewrite Hpost.
  assert (Hrun :
    (post_report env2 (Some (request "INFCIRC/540" "Gemini" "enrichment question"))
       empty_store).1
    = ReportReceived "p7m2c4d8wyz" (Some HIGH) (Some "IAEA")) by reflexivity.
  rewrite Hpost in Hrun.
  apply (f_equal2 pair); [exact Hrun | reflexivity].
Defined.

(** ** What the handlers write *)

Lemma post_report_store env body kv :
  (post_report env body kv).2
  = match body ≫= submitted_record env with
    | Some violation => store_violation violation kv
    | None => kv
    end.
Proof.
  unfold post_report, submitted_record. destruct body as [[s o c]|]; [|reflexivity].
  simpl. destruct (Js.truthy s), (Js.truthy o), (Js.truthy c); simpl; try reflexivity.
  destruct (getStatuteInfo (default "" s)); reflexivity.
Qed.

Lemma call_report_violation_store env id args kv :
  (call_report_violation env id args kv).2
  = match args ≫= (fun a => submitted_record env (body_of a)) with
    | Some violation => store_violation violation kv
    | None => kv
    end.
Proof.
  unfold call_report_violation, submitted_record, body_of.
  destruct args as [[s o c l sv]|]; [|reflexivity].
  simpl. destruct (Js.truthy s), (Js.truthy o), (Js.truthy c); simpl; try reflexivity.
  destruct (getStatuteInfo (default "" s)) as [info|]; [|reflexivity].
  simpl. destruct (lookup_jurisdiction info); reflexivity.
Qed.

Lemma tools_call_store env id params kv :
  (tools_call env id params kv).2 = kv
  ∨ (params ≫= RpcParams.name = Some "report_violation"
     ∧ (tools_call env id params kv).2
       = (call_report_violation env id (params ≫= RpcParams.arguments) kv).2).
Proof.
  unfold tools_call.
  destruct (negb _) eqn:Hname; [by left|].
  apply negb_false_iff, truthy_inv in Hname as (name & Hname & _).
  rewrite Hname. simpl.
  destruct (String.eqb_spec name "report_violation") as [->|_]; [by right|].
  left. repeat (destruct (String.eqb _ _); [reflexivity|]). reflexivity.
Qed.

Lemma post_mcp_store JSON_stringify env accept body kv :
  (post_mcp JSON_stringify env accept body kv).2 = kv
  ∨ (RpcRequest.method body = Some "tools/call"
     ∧ RpcRequest.params body ≫= RpcParams.name = Some "report_violation"
     ∧ (post_mcp JSON_stringify env accept body kv).2
       = (call_report_violation env (default IdNull (RpcRequest.id body))
            (RpcRequest.params body ≫= RpcParams.arguments) kv).2).
Proof.
  unfold post_mcp.
  destruct (negb (valid_envelope body)) eqn:Hvalid; [by left|].
  apply negb_false_iff in Hvalid. unfold valid_envelope in Hvalid.
  apply andb_true_iff in Hvalid as [Hvalid _].
  apply andb_true_iff in Hvalid as [_ Hmethod].
  apply truthy_inv in Hmethod as (method & Hmethod & _).
  rewrite Hmethod. simpl.
  destruct (String.eqb method "initialize"); [by left|].
  destruct (String.eqb method "tools/list"); [by left|].
  destruct (String.eqb_spec method "tools/call") as [->|_]; [|by left].
  destruct (tools_call_store env (default IdNull (RpcRequest.id body))
              (RpcRequest.params body) kv) as [H|[Hname H]]; [by left|].
  right. by repeat split.
Qed.

(** What a REST submission does to the binding, as later reads see it.
    When it is acknowledged, a read of the acknowledged id finds a
    record with that id and the acknowledged severity, the index is the
    old index with that id in front, and every other id reads as before.
    When it is refused, the status is 400 and the binding is the one
    before. *)
Theorem rest_submission_effect env body kv :
  match post_report env body kv with
  | (ReportReceived violationId severity organization, kv') =>
      violationId = random_id env
      ∧ (∃ violation,
           get_violation_by_id violationId kv' = Found violation
           ∧ ViolationReport.id violation = violationId
           ∧ Violation.severity (ViolationReport.violation violation) = severity)
      ∧ read_violation_ids kv' = violationId :: read_violation_ids kv
      ∧ (∀ id, id ≠ violationId ->
           get_violation_by_id id kv' = get_violation_by_id id kv)
  | (ReportRejected status error, kv') => status = 400 ∧ kv' = kv
  end.
Proof.
  destruct (post_report env body kv) as [[violationId severity organization|status error] kv']
    eqn:Hpost.
  - destruct body as [body|]; [|discriminate].
    assert (Hsev : severity
                   = lookup_severity
                       (default (Inherited "")
                          (getStatuteInfo
                             (default "" (SimpleViolationRequest.statute body))))).
    { revert Hpost. unfold post_report.
      destruct (_ || _); [discriminate|].
      destruct (getStatuteInfo _); [|discriminate]. by intros [= _ <- _ _]. }
    apply post_report_received in Hpost as (violation & Hrec & <- & Hid & ->).
    split; [assumption|]. split; [|split].
    + exists violation. unfold get_violation_by_id.
      rewrite get_store_violation. split; [reflexivity|]. split; [reflexivity|].
      rewrite Hsev. revert Hrec. unfold submitted_record.
      destruct (_ && _); [|discriminate].
      destruct (getStatuteInfo _); [|discriminate]. by intros [= <-].
    + apply read_ids_store_violation.
    + intros id Hne. unfold get_violation_by_id.
      by rewrite get_store_violation_ne.
  - split; [|by eapply post_report_rejected_store].
    revert Hpost. unfold post_report.
    destruct body as [body|]; [|by intros [= <- _ _]].
    destruct (_ || _); [by intros [= <- _ _]|].
    destruct (getStatuteInfo _); [discriminate | by intros [= <- _ _]].
Qed.

(** The three servers store the same record for the same three inputs:
    the REST route, the JSON-RPC tool and the stdio tool each add the
    record built from the inputs when the inputs pass the two checks,
    and add nothing otherwise, whatever they answer. *)
Theorem servers_store_the_same_record
    (JSON_stringify : RpcPayload -> string) env accept id args kv store :
  let stored := submitted_record env (body_of args) in
  (post_report env (Some (body_of args)) kv).2
    = from_option (fun v => store_violation v kv) kv stored
  ∧ (post_mcp JSON_stringify env accept
       (tool_call id "report_violation" (Some args)) kv).2
    = from_option (fun v => store_violation v kv) kv stored
  ∧ (stdio_call_tool env "report_violation" (Some args) store).2
    = from_option (fun v => ViolationStore.addViolation v store) store stored.
Proof.
  intros stored. subst stored. split; [|split].
  - rewrite post_report_store. simpl. by destruct (submitted_record _ _).
  - change (post_mcp JSON_stringify env accept
              (tool_call id "report_violation" (Some args)) kv)
      with (call_report_violation env id (Some args) kv).
    rewrite call_report_violation_store. simpl. by destruct (submitted_record _ _).
  - unfold stdio_call_tool, submitted_record, body_of.
    destruct args as [s o c l sv]. simpl.
    destruct (Js.truthy s), (Js.truthy o), (Js.truthy c); simpl; try reflexivity.
    destruct (getStatuteInfo (default "" s)) as [info|]; [|reflexivity].
    simpl. destruct (lookup_jurisdiction info); reflexivity.
Qed.

(** Only the [report_violation] tool writes: any other JSON-RPC request,
    valid or not, leaves the binding as it was. *)
Theorem only_report_violation_writes
    (JSON_stringify : RpcPayload -> string) env accept body kv :
  (post_mcp JSON_stringify env accept body kv).2 = kv
  ∨ (RpcRequest.method body = Some "tools/call"
     ∧ RpcRequest.params body ≫= RpcParams.name = Some "report_violation").
Proof.
  destruct (post_mcp_store JSON_stringify env accept body kv) as [H|(Hm & Hn & _)];
    [by left | by right].
Qed.

(** ** The index and the records stay in step *)

Lemma coherent_empty : coherent empty_store.
Proof.
  split.
  - intros id Hid. by apply elem_of_nil in Hid.
  - intros id v Hv. unfold empty_store in Hv. simpl in Hv.
    by rewrite lookup_empty in Hv.
Qed.

Lemma coherent_store_violation v kv :
  coherent kv -> coherent (store_violation v kv).
Proof.
  intros [Hindex Hrecords]. split.
  - intros id Hid. rewrite read_ids_store_violation in Hid.
    unfold store_violation; simpl.
    destruct (decide (id = ViolationReport.id v)) as [->|Hne].
    + rewrite lookup_insert_eq. by eexists.
    + rewrite lookup_insert_ne by congruence.
      apply Hindex. apply elem_of_cons in Hid as [?|?]; [contradiction | assumption].
  - intros id w Hw. rewrite read_ids_store_violation.
    unfold store_violation in Hw; simpl in Hw.
    destruct (decide (id = ViolationReport.id v)) as [->|Hne].
    + rewrite lookup_insert_eq in Hw. injection Hw as <-. split; [reflexivity | left].
    + rewrite lookup_insert_ne in Hw by congruence.
      destruct (Hrecords id w Hw) as [Hid Hin]. split; [assumption | by right].
Qed.

Lemma delete_all_lookup ids kv id :
  violations (foldl (fun kv id => delete_violation id kv) kv ids) !! id
  = if decide (id ∈ ids) then None else violations kv !! id.
Proof.
  revert kv. induction ids as [|i ids IH]; intros kv.
  - destruct (decide (id ∈ [])) as [H|_]; [by apply elem_of_nil in H | reflexivity].
  - cbn [foldl]. rewrite IH. unfold delete_violation at 1; cbn [violations].
    destruct (decide (id ∈ ids)) as [Hin|Hnin].
    + rewrite decide_True; [reflexivity | by right].
    + destruct (decide (id = i)) as [->|Hne].
      * rewrite lookup_delete_eq, decide_True; [reflexivity | left].
      * rewrite lookup_delete_ne by congruence.
        rewrite decide_False; [reflexivity|].
        intros Hin. apply elem_of_cons in Hin as [?|?]; contradiction.
Qed.

Lemma clear_data_store kv :
  (clear_data kv).2
  = {| violations :=
         violations (foldl (fun kv id => delete_violation id kv) kv
                       (read_violation_ids kv));
       violation_list := None |}.
Proof. reflexivity. Qed.

Lemma clear_coherent kv : coherent kv -> (clear_data kv).2 = empty_store.
Proof.
  intros [_ Hrecords]. rewrite clear_data_store. unfold empty_store. f_equal.
  apply map_eq. intros id. rewrite delete_all_lookup, lookup_empty.
  destruct (decide (id ∈ read_violation_ids kv)) as [_|Hnin]; [reflexivity|].
  destruct (violations kv !! id) as [v|] eqn:Hv; [|reflexivity].
  destruct (Hrecords id v Hv) as [_ Hin]. contradiction.
Qed.

Lemma step_coherent JSON_stringify kv op :
  coherent kv -> coherent (step JSON_stringify kv op).
Proof.
  intros Hkv. destruct op as [env body|env accept body|]; cbn [step].
  - rewrite post_report_store.
    destruct (body ≫= submitted_record env); [by apply coherent_store_violation | assumption].
  - destruct (post_mcp_store JSON_stringify env accept body kv) as [->|(_ & _ & ->)];
      [assumption|].
    rewrite call_report_violation_store.
    destruct (_ ≫= _); [by apply coherent_store_violation | assumption].
  - rewrite (clear_coherent kv Hkv). apply coherent_empty.
Qed.

Lemma run_coherent_from JSON_stringify ops kv :
  coherent kv -> coherent (run JSON_stringify ops kv).
Proof.
  revert kv. induction ops as [|op ops IH]; intros kv Hkv; [assumption|].
  simpl. apply IH. by apply step_coherent.
Qed.

Lemma coherent_fetch_length kv :
  coherent kv -> length (fetch_violations kv) = length (read_violation_ids kv).
Proof.
  intros [Hindex _]. rewrite fetch_length_present. unfold present_ids.
  f_equal. induction (read_violation_ids kv) as [|id ids IH]; [reflexivity|].
  rewrite filter_cons, decide_True by (apply Hindex; left).
  f_equal. apply IH. intros i Hi. apply Hindex. by right.
Qed.

(** Whatever REST submissions, JSON-RPC requests and clears are run from
    the empty binding, the index and the records fit: every id of the
    index has a record, every record is stored under its own id and that
    id is in the index; so a listing without filters counts as many
    records as the index has ids. *)
Theorem reachable_binding_is_coherent
    (JSON_stringify : RpcPayload -> string) ops :
  let kv := run JSON_stringify ops empty_store in
  coherent kv
  ∧ length (fetch_violations kv) = length (read_violation_ids kv).
Proof.
  intros kv.
  assert (Hkv : coherent kv) by (apply run_coherent_from, coherent_empty).
  split; [assumption | by apply coherent_fetch_length].
Qed.

(** After such a run, clearing leaves exactly the empty binding, with no
    record left behind, and reports the length of the index. *)
Theorem clear_after_run_is_empty (JSON_stringify : RpcPayload -> string) ops :
  let kv := run JSON_stringify ops empty_store in
  clear_data kv = (length (read_violation_ids kv), empty_store).
Proof.
  intros kv.
  assert (Hkv : coherent kv) by (apply run_coherent_from, coherent_empty).
  rewrite <- (clear_coherent kv Hkv). reflexivity.
Qed.

Lemma slice_nil {A} (a b : Js.Number) : Js.slice (@nil A) a b = [].
Proof. unfold Js.slice. by rewrite drop_nil, take_nil. Qed.

(** Clearing any binding: the count reported is the length of the index,
    not the number of records removed; afterwards the index is empty,
    every listing has total 0 and an empty page, the aggregate view
    returns with total 0, and an id that was in the index is not found.
    A record whose id was not in the index is still there. *)
Theorem clear_data_effect kv now severity jurisdiction limit offset :
  let kv' := (clear_data kv).2 in
  (clear_data kv).1 = length (read_violation_ids kv)
  ∧ read_violation_ids kv' = []
  ∧ (∃ page,
       list_violations kv' severity jurisdiction limit offset = Js.Return page
       ∧ ViolationsPage.violations page = []
       ∧ ViolationsPage.total page = 0)
  ∧ (∃ stats, get_stats now kv' = Js.Return stats ∧ ViolationStats.total stats = 0)
  ∧ (∀ id, id ∈ read_violation_ids kv ->
       get_violation_by_id id kv' = NotFound 404 "Violation not found")
  ∧ (∀ id, id ∉ read_violation_ids kv ->
       get_violation_by_id id kv' = get_violation_by_id id kv).
Proof.
  intros kv'. subst kv'.
  split; [reflexivity|]. split; [reflexivity|]. split; [|split; [|split]].
  - unfold list_violations.
    change (fetch_violations (clear_data kv).2) with (@nil ViolationReport.t).
    rewrite filter_nil.
    destruct (Js.truthy severity), (Js.truthy jurisdiction); simpl;
      (eexists; split; [reflexivity|]; split; [apply slice_nil | reflexivity]).
  - eexists. split; reflexivity.
  - intros id Hid. unfold get_violation_by_id, get_violation.
    rewrite clear_data_store. simpl. rewrite delete_all_lookup.
    by rewrite decide_True.
  - intros id Hid. unfold get_violation_by_id, get_violation.
    rewrite clear_data_store. simpl. rewrite delete_all_lookup.
    by rewrite decide_False.
Qed.

(** ** More on listings *)

Lemma filter_jurisdiction_return j l kept :
  filter_jurisdiction j l = Js.Return kept ->
  kept = filter (fun v => bool_decide (j ∈ jurisdictions v) = true) l.
Proof.
  revert kept. induction l as [|v l IH]; intros kept.
  - by intros [= <-].
  - cbn [filter_jurisdiction].
    destruct (Violation.jurisdiction (ViolationReport.violation v)) as [js|] eqn:Hjs;
      [|discriminate].
    simpl. destruct (filter_jurisdiction j l) as [kept'|]; [|discriminate].
    simpl. intros [= <-]. rewrite (IH kept' eq_refl), filter_cons.
    assert (Hv : jurisdictions v = js) by (unfold jurisdictions; by rewrite Hjs).
    destruct (decide (bool_decide (j ∈ jurisdictions v) = true)) as [Hd|Hd];
      rewrite Hv in Hd.
    + by rewrite Hd.
    + apply not_true_is_false in Hd. by rewrite Hd.
Qed.

Lemma filtering_return severity jurisdiction (l filtered : list ViolationReport.t) :
  (if Js.truthy jurisdiction
   then filter_jurisdiction (default "" jurisdiction)
          (if Js.truthy severity
           then filter (fun v => severity_is (default "" severity) v = true) l
           else l)
   else Js.Return
          (if Js.truthy severity
           then filter (fun v => severity_is (default "" severity) v = true) l
           else l))
  = Js.Return filtered ->
  filtered = filter (fun v => selected severity jurisdiction v = true) l.
Proof.
  assert (Hoff : ∀ f : option string, Js.truthy f = false ->
            match f with Some s => String.eqb s "" | None => true end = true).
  { intros [s|] H; [|reflexivity]. by apply negb_false_iff in H. }
  destruct (Js.truthy jurisdiction) eqn:Hj, (Js.truthy severity) eqn:Hs.
  - intros H. apply filter_jurisdiction_return in H as ->.
    apply truthy_inv in Hj as (j & -> & Hj). apply truthy_inv in Hs as (s & -> & Hs).
    simpl. rewrite filter_filter_selected. apply filter_ext_bool. intros v.
    unfold selected, jurisdictions. by rewrite <- severity_is_spec, !eqb_empty.
  - intros H. apply filter_jurisdiction_return in H as ->.
    apply truthy_inv in Hj as (j & -> & Hj). simpl.
    apply filter_ext_bool. intros v. unfold selected, jurisdictions.
    rewrite (eqb_empty j) by assumption. simpl.
    specialize (Hoff severity Hs). destruct severity; [by rewrite Hoff | reflexivity].
  - intros [= <-]. apply truthy_inv in Hs as (s & -> & Hs). simpl.
    apply filter_ext_bool. intros v. unfold selected.
    rewrite eqb_empty, <- severity_is_spec by assumption. simpl.
    specialize (Hoff jurisdiction Hj).
    destruct jurisdiction; [by rewrite Hoff, andb_true_r | by rewrite andb_true_r].
  - intros [= <-]. symmetry. apply filter_true. intros v. unfold selected.
    pose proof (Hoff severity Hs) as Hs'. pose proof (Hoff jurisdiction Hj) as Hj'.
    destruct severity, jurisdiction; simpl in *;
      rewrite ?Hs', ?Hj'; reflexivity.
Qed.

Lemma slice_take_drop_sum {A} (l : list A) (offset limit : nat) :
  Js.slice l (Some (Z.of_nat offset)) (Some (Z.of_nat offset + Z.of_nat limit)%Z)
  = take limit (drop offset l).
Proof. exact (slice_take_drop l offset limit). Qed.

(** A listing that returns is determined by the records that pass the
    filters, and then the listing returns for every other pagination as
    well. *)
Lemma list_violations_return kv severity jurisdiction limit offset page :
  list_violations kv severity jurisdiction limit offset = Js.Return page ->
  ∀ limit' offset',
    list_violations kv severity jurisdiction limit' offset'
    = let filtered :=
        filter (fun v => selected severity jurisdiction v = true)
          (fetch_violations kv) in
      Js.Return
        {| ViolationsPage.violations :=
             Js.slice filtered offset' (Js.add offset' limit');
           ViolationsPage.total := length filtered;
           ViolationsPage.hasMore :=
             Js.lt (Js.add offset' limit') (Some (Z.of_nat (length filtered))) |}.
Proof.
  unfold list_violations. cbv zeta. intros H limit' offset'.
  destruct (if Js.truthy jurisdiction then _ else _) as [filtered|] eqn:Hf;
    [|discriminate].
  apply filtering_return in Hf as ->. reflexivity.
Qed.

(** Whatever the pagination, negative or not a number included, a page
    holds only fetched records, in the order of the index, and each of
    them passes the filters of the query. *)
Theorem page_holds_selected_records kv severity jurisdiction limit offset page :
  list_violations kv severity jurisdiction limit offset = Js.Return page ->
  ViolationsPage.violations page `sublist_of` fetch_violations kv
  ∧ Forall (fun v => selected severity jurisdiction v = true)
      (ViolationsPage.violations page)
  ∧ (length (ViolationsPage.violations page) ≤ ViolationsPage.total page)%nat.
Proof.
  intros H. pose proof (list_violations_return _ _ _ _ _ _ H limit offset) as H'.
  rewrite H in H'. cbv zeta in H'. injection H' as ->. simpl.
  set (filtered := filter _ (fetch_violations kv)).
  assert (Hsub : Js.slice filtered offset (Js.add offset limit) `sublist_of` filtered).
  { unfold Js.slice. etrans; [apply sublist_take | apply sublist_drop]. }
  split; [|split].
  - etrans; [exact Hsub | apply sublist_filter].
  - apply Forall_forall. intros v Hv.
    apply (elem_of_sublist _ _ _ Hv) in Hsub.
    by apply list_elem_of_filter in Hsub as [Hsel _].
  - by apply sublist_length.
Qed.

Lemma page_holds_selected_records_witness :
  ∃ page,
    list_violations kv_two (Some "CRITICAL") (Some "ICC") (Some 5%Z) (Some (-3)%Z)
    = Js.Return page
    ∧ Forall (fun v => selected (Some "CRITICAL") (Some "ICC") v = true)
        (ViolationsPage.violations page).
Proof.
  eexists. split; [reflexivity|].
  eapply (page_holds_selected_records kv_two (Some "CRITICAL") (Some "ICC")
            (Some 5%Z) (Some (-3)%Z)).
  reflexivity.
Defined.

(** Two consecutive pages laid end to end are the one page that covers
    both, and all three report the same total. *)
Theorem consecutive_pages_compose kv severity jurisdiction
    (offset limit1 limit2 : nat) page1 page2 :
  list_violations kv severity jurisdiction
    (Some (Z.of_nat limit1)) (Some (Z.of_nat offset)) = Js.Return page1 ->
  list_violations kv severity jurisdiction
    (Some (Z.of_nat limit2)) (Some (Z.of_nat (offset + limit1))) = Js.Return page2 ->
  ∃ page,
    list_violations kv severity jurisdiction
      (Some (Z.of_nat (limit1 + limit2))) (Some (Z.of_nat offset)) = Js.Return page
    ∧ ViolationsPage.violations page
      = (ViolationsPage.violations page1 ++ ViolationsPage.violations page2)%list
    ∧ ViolationsPage.total page = ViolationsPage.total page1
    ∧ ViolationsPage.total page = ViolationsPage.total page2
    ∧ ViolationsPage.hasMore page = ViolationsPage.hasMore page2.
Proof.
  intros H1 H2.
  pose proof (list_violations_return _ _ _ _ _ _ H1) as Hall.
  rewrite (Hall (Some (Z.of_nat limit1)) (Some (Z.of_nat offset))) in H1.
  rewrite (Hall (Some (Z.of_nat limit2)) (Some (Z.of_nat (offset + limit1)))) in H2.
  cbv zeta in H1, H2. injection H1 as <-. injection H2 as <-.
  eexists. split; [apply Hall|].
  cbn [ViolationsPage.violations ViolationsPage.total ViolationsPage.hasMore].
  split; [|split; [reflexivity|split; [reflexivity|]]].
  - unfold Js.add.
    rewrite !slice_take_drop_sum, <- take_take_drop, drop_drop. reflexivity.
  - unfold Js.add, Js.lt.
    replace (Z.of_nat offset + Z.of_nat (limit1 + limit2))%Z
      with (Z.of_nat (offset + limit1) + Z.of_nat limit2)%Z by lia.
    reflexivity.
Qed.

Lemma consecutive_pages_compose_witness :
  ∃ page,
    list_violations kv_two None None (Some 2%Z) (Some 0%Z) = Js.Return page
    ∧ length (ViolationsPage.violations page) = 2.
Proof.
  destruct (consecutive_pages_compose kv_two None None 0 1 1 _ _ eq_refl eq_refl)
    as (page & Hpage & Hrecords & _).
  exists page. split; [exact Hpage|]. by rewrite Hrecords.
Defined.

(** With natural numbers [limit] and [offset]: when [hasMore] is true
    the page is full, with exactly [limit] records; when it is false the
    page holds all the records from position [offset] on. *)
Theorem hasMore_tells_full_page kv severity jurisdiction (limit offset : nat) page :
  list_violations kv severity jurisdiction
    (Some (Z.of_nat limit)) (Some (Z.of_nat offset)) = Js.Return page ->
  if ViolationsPage.hasMore page
  then length (ViolationsPage.violations page) = limit
  else length (ViolationsPage.violations page)
       = (ViolationsPage.total page - offset)%nat.
Proof.
  intros H. pose proof (list_violations_return _ _ _ _ _ _ H) as Hall.
  rewrite Hall in H. cbv zeta in H. injection H as <-. simpl.
  unfold Js.add. rewrite slice_take_drop_sum, length_take, length_drop.
  destruct (Z.ltb_spec (Z.of_nat offset + Z.of_nat limit)
              (Z.of_nat (length (filter
                 (fun v => selected severity jurisdiction v = true)
                 (fetch_violations kv))))); lia.
Qed.

Lemma hasMore_tells_full_page_witness :
  ∃ page,
    list_violations kv_two None None (Some 1%Z) (Some 0%Z) = Js.Return page
    ∧ ViolationsPage.hasMore page = true
    ∧ length (ViolationsPage.violations page) = 1.
Proof.
  eexists. split; [reflexivity|]. split; [reflexivity|].
  exact (hasMore_tells_full_page kv_two None None 1 0 _ eq_refl).
Defined.

Lemma slice_to_nan {A} (l : list A) start : Js.slice l start None = [].
Proof.
  unfold Js.slice. cbv zeta.
  set (k := Js.relative_index _ (Js.to_integer start)).
  set (e := Js.relative_index _ (Js.to_integer None)).
  assert (He : (e - k <= 0)%Z).
  { subst e k. unfold Js.relative_index.
    change (Js.to_integer None) with 0%Z.
    destruct (Z.ltb_spec 0 0); [lia|].
    destruct (Z.ltb_spec (Js.to_integer start) 0); lia. }
  replace (Z.to_nat (e - k)) with 0 by lia. reflexivity.
Qed.

(** [parseInt] skips Unicode white space as well as ASCII white space
    (here U+00A0 and U+FEFF), but not other invisible characters (here
    U+200B), and stops at the first character that is no digit. *)
Example parseInt_white_space :
  let bytes := fold_right (fun n s => String (ascii_of_nat n) s) in
  Js.parseInt (bytes "1" [194; 160]) = Some 1%Z
  ∧ Js.parseInt (bytes " -12px" [239; 187; 191]) = Some (-12)%Z
  ∧ Js.parseInt (bytes "1" [226; 128; 139]) = None
  ∧ Js.parseInt "abc" = None
  ∧ Js.parseInt "" = None.
Proof. repeat split. Qed.

(** A [limit] or an [offset] that [parseInt] cannot read gives an empty
    page with [hasMore] false; the total is still the number of records
    that pass the filters. *)
Theorem unreadable_pagination_gives_empty_page q kv page :
  get_violations q kv = Js.Return page ->
  Js.parseInt (Js.or_else (ViolationsQuery.limit q) "50") = None
  ∨ Js.parseInt (Js.or_else (ViolationsQuery.offset q) "0") = None ->
  ViolationsPage.violations page = []
  ∧ ViolationsPage.hasMore page = false
  ∧ ViolationsPage.total page
    = length (filter (fun v => selected (ViolationsQuery.severity q)
                                 (ViolationsQuery.jurisdiction q) v = true)
                (fetch_violations kv)).
Proof.
  unfold get_violations. intros H Hnan.
  pose proof (list_violations_return _ _ _ _ _ _ H) as Hall.
  rewrite Hall in H. cbv zeta in H. injection H as <-. simpl.
  assert (Hsum : Js.add (Js.parseInt (Js.or_else (ViolationsQuery.offset q) "0"))
                   (Js.parseInt (Js.or_else (ViolationsQuery.limit q) "50")) = None).
  { destruct Hnan as [-> | ->]; [|reflexivity].
    by destruct (Js.parseInt (Js.or_else (ViolationsQuery.offset q) "0")). }
  rewrite Hsum. split; [apply slice_to_nan | split; reflexivity].
Qed.

Lemma unreadable_pagination_gives_empty_page_witness :
  ∃ page,
    get_violations
      (ViolationsQuery.mk (Some "abc") (Some "1") None None) kv_two
    = Js.Return page
    ∧ ViolationsPage.violations page = []
    ∧ ViolationsPage.total page = 2.
Proof.
  eexists. split; [reflexivity|].
  destruct (unreadable_pagination_gives_empty_page
              (ViolationsQuery.mk (Some "abc") (Some "1") None None) kv_two _ eq_refl)
    as (Hpage & _ & Htotal).
  { left. reflexivity. }
  split; [exact Hpage|]. rewrite Htotal. reflexivity.
Defined.

(** The [list_violations] tool shows the first page of the REST listing
    with the same severity filter and no jurisdiction filter: the same
    records and the same total, 10 records when no limit is given, and
    the no-violations text exactly when that page is empty. *)
Theorem list_tool_shows_first_page id limit severity kv :
  ∃ page,
    list_violations kv severity None (Some (default 10%Z limit)) (Some 0%Z)
    = Js.Return page
    ∧ call_list_violations id (Some (list_arguments limit severity)) kv
      = Json 200 (RpcSuccess id (ToolResult
          (if (length (ViolationsPage.violations page) =? 0)%nat
           then NoViolationsText
           else ViolationsText (ViolationsPage.violations page)
                  (ViolationsPage.total page)))).
Proof.
  unfold list_violations, call_list_violations, list_arguments. simpl.
  eexists. split; [reflexivity|]. simpl.
  replace (0 + default 10 limit)%Z with (default 10%Z limit) by lia.
  destruct (_ =? 0)%nat; reflexivity.
Qed.

(** ** More on counting *)

Lemma occurrences_cons_eq k (keys : list string) :
  occurrences k (k :: keys) = S (occurrences k keys).
Proof. unfold occurrences. by rewrite filter_cons, decide_True. Qed.

Lemma occurrences_cons_ne k k' (keys : list string) :
  k' ≠ k -> occurrences k (k' :: keys) = occurrences k keys.
Proof. intros H. unfold occurrences. by rewrite filter_cons, decide_False. Qed.

Lemma increment_bucket acc k n :
  acc !! k = bucket_after k n ->
  Js.increment acc k !! k = bucket_after k (S n).
Proof.
  intros Hacc. unfold Js.increment. cbn [bucket_after].
  destruct (String.eqb k "__proto__") eqn:Hproto.
  - rewrite Hacc. destruct n; simpl; by rewrite ?Hproto.
  - rewrite Hacc. destruct n as [|n]; simpl; rewrite ?Hproto.
    + destruct (Js.is_prototype_member k); by rewrite lookup_insert_eq.
    + destruct (Js.is_prototype_member k); rewrite lookup_insert_eq;
        by rewrite Nat.add_1_r.
Qed.

Lemma foldl_increment_bucket keys acc k n :
  acc !! k = bucket_after k n ->
  foldl Js.increment acc keys !! k = bucket_after k (n + occurrences k keys).
Proof.
  revert acc n. induction keys as [|k' keys IH]; intros acc n Hacc.
  - cbn [foldl]. unfold occurrences. simpl. by rewrite Nat.add_0_r.
  - cbn [foldl]. destruct (decide (k' = k)) as [->|Hne].
    + rewrite occurrences_cons_eq, Nat.add_succ_r.
      apply (IH _ (S n)). by apply increment_bucket.
    + rewrite occurrences_cons_ne by assumption.
      apply IH. rewrite increment_lookup_ne by congruence. assumption.
Qed.

(** What a counting reduction leaves at each key depends only on how
    many records have that key: nothing for none; otherwise the number,
    except that a key named like a member of [Object.prototype] holds
    text and the key ["__proto__"] holds nothing. *)
Theorem counting_per_key (key : ViolationReport.t -> string)
    (l : list ViolationReport.t) k :
  count_by key l !! k = bucket_after k (occurrences k (key <$> l)).
Proof.
  unfold count_by. rewrite count_by_keys.
  apply (foldl_increment_bucket _ ∅ k 0). apply lookup_empty.
Qed.

Lemma count_by_Permutation (key : ViolationReport.t -> string)
    (l l' : list ViolationReport.t) :
  l ≡ₚ l' -> count_by key l = count_by key l'.
Proof.
  intros Hperm. apply map_eq. intros k.
  unfold count_by. rewrite !count_by_keys.
  rewrite !(foldl_increment_bucket _ ∅ k 0) by apply lookup_empty.
  f_equal. f_equal. unfold occurrences. by rewrite Hperm.
Qed.

Lemma count_of_count_by (key : ViolationReport.t -> string)
    (l : list ViolationReport.t) k :
  Js.is_prototype_member k = false ->
  count_of (count_by key l) k = occurrences k (key <$> l).
Proof.
  intros Hk. unfold count_of, count_by. rewrite count_by_keys.
  rewrite (foldl_increment_counted _ ∅ k 0) by (assumption || apply lookup_empty).
  simpl. by destruct (occurrences k (key <$> l)).
Qed.

Lemma severity_occurrences_add_up (l : list ViolationReport.t) :
  Forall well_formed l ->
  (occurrences "LOW" (severity_key <$> l)
   + occurrences "MEDIUM" (severity_key <$> l)
   + occurrences "HIGH" (severity_key <$> l)
   + occurrences "CRITICAL" (severity_key <$> l))%nat
  = length l.
Proof.
  induction 1 as [|v l (_ & [s Hs] & _) _ IH]; [reflexivity|].
  assert (Hkey : severity_key v = severity_name s)
    by (unfold severity_key; by rewrite Hs).
  rewrite fmap_cons, Hkey, length_cons, <- IH.
  destruct s; cbn [severity_name];
    rewrite occurrences_cons_eq, !occurrences_cons_ne by discriminate;
    lia.
Qed.

(** On records that carry their [violation] fields, the four severity
    counts of the aggregate view add up to [total], and [recent24h] does
    not exceed it. *)
Theorem severity_counts_add_up kv now :
  Forall well_formed (fetch_violations kv) ->
  ∃ stats,
    get_stats now kv = Js.Return stats
    ∧ (count_of (ViolationStats.bySeverity stats) "LOW"
       + count_of (ViolationStats.bySeverity stats) "MEDIUM"
       + count_of (ViolationStats.bySeverity stats) "HIGH"
       + count_of (ViolationStats.bySeverity stats) "CRITICAL")%nat
      = ViolationStats.total stats
    ∧ (ViolationStats.recent24h stats ≤ ViolationStats.total stats)%nat.
Proof.
  intros Hwf. unfold get_stats.
  rewrite count_jurisdictions_well_formed by assumption.
  eexists. split; [reflexivity|]. simpl. split.
  - rewrite !count_of_count_by by reflexivity.
    by apply severity_occurrences_add_up.
  - unfold recent. apply length_filter.
Qed.

Lemma severity_counts_add_up_witness :
  Forall well_formed (fetch_violations kv_two)
  ∧ ∃ stats,
      get_stats 1700000100000 kv_two = Js.Return stats
      ∧ (count_of (ViolationStats.bySeverity stats) "LOW"
         + count_of (ViolationStats.bySeverity stats) "MEDIUM"
         + count_of (ViolationStats.bySeverity stats) "HIGH"
         + count_of (ViolationStats.bySeverity stats) "CRITICAL")%nat
        = ViolationStats.total stats.
Proof.
  split; [exact kv_two_well_formed|].
  destruct (severity_counts_add_up kv_two 1700000100000 kv_two_well_formed)
    as (stats & Hstats & Hsum & _).
  exists stats. split; assumption.
Defined.

(** ** More on the JSON-RPC transport *)






(** A body that cannot be read is answered with the internal error
    -32603, id [null] and status 500, as plain JSON whatever the
    [Accept] header, and nothing is written. *)
Lemma unreadable_body_answer (JSON_stringify : RpcPayload -> string)
    env accept e kv :
  post_mcp_request JSON_stringify env accept (Js.Throw e) kv
  = (Json 500 (RpcFailure IdNull (-32603) ("Internal error: " ++ Js.message e)), kv).
Proof. reflexivity. Qed.

(** The tools that need no input answer without an [arguments] object,
    but [list_violations], whose two parameters are optional, throws on
    destructuring and answers the internal error -32603 with status 500;
    with an empty [arguments] object it lists up to 10 records. *)
Theorem tools_without_arguments (JSON_stringify : RpcPayload -> string)
    env accept id kv :
  post_mcp JSON_stringify env accept (tool_call id "list_statutes" None) kv
    = (Json 200 (RpcSuccess id (ToolResult (StatutesText getAllStatutes))), kv)
  ∧ (∃ total bySeverity byOrganization recent24h,
       post_mcp JSON_stringify env accept (tool_call id "get_violation_stats" None) kv
       = (Json 200 (RpcSuccess id (ToolResult
            (StatsText total bySeverity byOrganization recent24h))), kv)
       ∧ total = length (fetch_violations kv))
  ∧ (∃ message,
       post_mcp JSON_stringify env accept (tool_call id "list_violations" None) kv
       = (Json 500 (RpcFailure IdNull (-32603) message), kv))
  ∧ (∃ text,
       post_mcp JSON_stringify env accept
         (tool_call id "list_violations" (Some (list_arguments None None))) kv
       = (Json 200 (RpcSuccess id (ToolResult text)), kv)
       ∧ text
         = if (length (take 10 (fetch_violations kv)) =? 0)%nat
           then NoViolationsText
           else ViolationsText (take 10 (fetch_violations kv))
                  (length (fetch_violations kv))).
Proof.
  split; [reflexivity|]. split; [|split].
  - do 4 eexists. split; reflexivity.
  - by eexists.
  - change (post_mcp JSON_stringify env accept
              (tool_call id "list_violations" (Some (list_arguments None None))) kv)
      with (call_list_violations id (Some (list_arguments None None)) kv, kv).
    unfold call_list_violations, list_arguments. simpl.
    change (Some 10%Z) with (Js.add (Some (Z.of_nat 0)) (Some (Z.of_nat 10))).
    change (Some 0%Z) with (Some (Z.of_nat 0)).
    rewrite (slice_take_drop (fetch_violations kv) 0 10). simpl.
    destruct (_ =? 0)%nat; eexists; split; reflexivity.
Qed.

(** ** The in-memory store of the stdio server *)

Lemma add_all_snoc records v :
  add_all (records ++ [v]) = ViolationStore.addViolation v (add_all records).
Proof. unfold add_all. by rewrite foldl_app. Qed.

Lemma add_all_violations records :
  ViolationStore.violations (add_all records) = records.
Proof.
  induction records as [|v records IH] using rev_ind; [reflexivity|].
  rewrite add_all_snoc. simpl. by rewrite IH.
Qed.

Lemma add_all_ids records :
  ViolationStore.violationIds (add_all records)
  = reverse (ViolationReport.id <$> records).
Proof.
  induction records as [|v records IH] using rev_ind; [reflexivity|].
  rewrite add_all_snoc. simpl. rewrite IH, fmap_app, reverse_app. reflexivity.
Qed.

(** The in-memory store lists its records latest first, and its list of
    ids is the list of their ids in that order. *)
Theorem memory_store_lists_latest_first records :
  ViolationStore.getViolations (add_all records) = reverse records
  ∧ ViolationStore.violationIds (add_all records)
    = ViolationReport.id <$> ViolationStore.getViolations (add_all records).
Proof.
  unfold ViolationStore.getViolations.
  rewrite add_all_violations, add_all_ids, fmap_reverse. split; reflexivity.
Qed.

Lemma find_app {A} (f : A -> bool) (l l' : list A) :
  List.find f (l ++ l')
  = match List.find f l with
    | Some x => Some x
    | None => List.find f l'
    end.
Proof.
  induction l as [|x l IH]; [reflexivity|].
  simpl. destruct (f x); [reflexivity | exact IH].
Qed.

Lemma getViolationById_add id v store :
  ViolationStore.getViolationById id (ViolationStore.addViolation v store)
  = match ViolationStore.getViolationById id store with
    | Some old => Some old
    | None => if String.eqb (ViolationReport.id v) id then Some v else None
    end.
Proof. unfold ViolationStore.getViolationById. simpl. by rewrite find_app. Qed.

(** When two records carry the same id, a read by id finds the earlier
    one in the in-memory store and the later one in the key-value
    binding; a record with a fresh id is found in both. *)
Theorem read_by_id_after_add v store kv :
  ViolationStore.getViolationById (ViolationReport.id v)
    (ViolationStore.addViolation v store)
  = Some (default v
            (ViolationStore.getViolationById (ViolationReport.id v) store))
  ∧ get_violation (ViolationReport.id v) (store_violation v kv) = Some v.
Proof.
  split; [|apply get_store_violation].
  rewrite getViolationById_add.
  destruct (ViolationStore.getViolationById _ store); [reflexivity|].
  by rewrite String.eqb_refl.
Qed.

Lemma store_all_snoc records v :
  store_all (records ++ [v]) = store_violation v (store_all records).
Proof. unfold store_all. by rewrite foldl_app. Qed.

Lemma store_all_ids records :
  read_violation_ids (store_all records) = reverse (ViolationReport.id <$> records).
Proof.
  unfold store_all. rewrite read_ids_foldl_store. apply app_nil_r.
Qed.

Lemma find_none_of_fresh id (l : list ViolationReport.t) :
  id ∉ ViolationReport.id <$> l ->
  List.find (fun v => String.eqb (ViolationReport.id v) id) l = None.
Proof.
  induction l as [|v l IH]; [reflexivity|].
  rewrite fmap_cons. intros Hnin. apply not_elem_of_cons in Hnin as [Hne Hnin].
  simpl. destruct (String.eqb_spec (ViolationReport.id v) id); [congruence|].
  by apply IH.
Qed.

Lemma get_store_all records id :
  NoDup (ViolationReport.id <$> records) ->
  get_violation id (store_all records)
  = ViolationStore.getViolationById id (add_all records).
Proof.
  induction records as [|v records IH] using rev_ind; intros Hnd.
  - unfold get_violation. simpl. apply lookup_empty.
  - rewrite fmap_app in Hnd. apply NoDup_app in Hnd as (Hnd & Hfresh & _).
    rewrite store_all_snoc, add_all_snoc, getViolationById_add, <- IH by assumption.
    destruct (String.eqb_spec (ViolationReport.id v) id) as [<-|Hne].
    + rewrite get_store_violation.
      assert (Hnone : ViolationStore.getViolationById (ViolationReport.id v)
                        (add_all records) = None).
      { unfold ViolationStore.getViolationById. rewrite add_all_violations.
        apply find_none_of_fresh. intros Hin. apply (Hfresh _ Hin).
        simpl. left. }
      rewrite IH, Hnone by assumption. reflexivity.
    + rewrite get_store_violation_ne by congruence.
      by destruct (get_violation id (store_all records)).
Qed.

(** Fed the same records with pairwise distinct ids, the key-value
    binding of the worker and the in-memory store of the stdio server
    agree: the same index, the same listing latest first, the same
    answer to every read by id. *)
Theorem stores_agree records id :
  NoDup (ViolationReport.id <$> records) ->
  read_violation_ids (store_all records)
    = ViolationStore.violationIds (add_all records)
  ∧ fetch_violations (store_all records)
    = ViolationStore.getViolations (add_all records)
  ∧ get_violation id (store_all records)
    = ViolationStore.getViolationById id (add_all records).
Proof.
  intros Hnd. split; [|split].
  - by rewrite store_all_ids, add_all_ids.
  - unfold store_all, ViolationStore.getViolations.
    rewrite fetch_foldl_store, add_all_violations.
    + apply app_nil_r.
    + assumption.
    + intros v _. apply not_elem_of_nil.
  - by apply get_store_all.
Qed.

Lemma stores_agree_witness :
  let v1 := build_violation env1 "Rome Statute Article 7" "TestAI" "x" (Entry rome7) in
  let v2 := build_violation env2 "Rome Statute Article 7" "Gemini" "y" (Entry rome7) in
  NoDup (ViolationReport.id <$> [v1; v2])
  ∧ fetch_violations (store_all [v1; v2]) = [v2; v1]
  ∧ ViolationStore.getViolationById "k3v9x1q0zab" (add_all [v1; v2]) = Some v1.
Proof.
  intros v1 v2.
  assert (Hnd : NoDup (ViolationReport.id <$> [v1; v2]))
    by (apply (bool_decide_unpack _); vm_compute; exact I).
  destruct (stores_agree [v1; v2] "k3v9x1q0zab" Hnd) as (_ & Hfetch & Hget).
  split; [exact Hnd|]. split.
  - rewrite Hfetch. reflexivity.
  - rewrite <- Hget. reflexivity.
Defined.

(** On such stores the statistics agree as well: what [getStats] of the
    in-memory store computes is what the [get_violation_stats] tool of
    the worker prints, although the one walks the records oldest first
    and the other latest first. *)
Theorem statistics_agree env id records :
  NoDup (ViolationReport.id <$> records) ->
  let stats := ViolationStore.getStats (now_timestamp env) (add_all records) in
  call_get_violation_stats env id (store_all records)
  = Json 200 (RpcSuccess id (ToolResult
      (StatsText (ViolationStore.total stats) (ViolationStore.bySeverity stats)
         (ViolationStore.byOrganization stats) (ViolationStore.recent24h stats)))).
Proof.
  intros Hnd stats. subst stats.
  unfold call_get_violation_stats, ViolationStore.getStats.
  assert (Hfetch : fetch_violations (store_all records) = reverse records).
  { unfold store_all. rewrite fetch_foldl_store; [apply app_nil_r | assumption |].
    intros v _. apply not_elem_of_nil. }
  rewrite Hfetch, add_all_violations. simpl.
  rewrite length_reverse.
  rewrite (count_by_Permutation severity_key (reverse records) records)
    by apply reverse_Permutation.
  rewrite (count_by_Permutation ViolationReport.responsibleOrganization
             (reverse records) records) by apply reverse_Permutation.
  unfold recent. by rewrite filter_reverse, length_reverse.
Qed.

Lemma statistics_agree_witness :
  let v1 := build_violation env1 "Rome Statute Article 7" "TestAI" "x" (Entry rome7) in
  let v2 := build_violation env2 "Rome Statute Article 7" "Gemini" "y" (Entry rome7) in
  ∃ bySeverity byOrganization,
    call_get_violation_stats env2 IdNull (store_all [v1; v2])
    = Json 200 (RpcSuccess IdNull (ToolResult
        (StatsText 2 bySeverity byOrganization 2)))
    ∧ bySeverity !! "CRITICAL" = Some (Js.Count 2).
Proof.
  intros v1 v2.
  assert (Hnd : NoDup (ViolationReport.id <$> [v1; v2]))
    by (apply (bool_decide_unpack _); vm_compute; exact I).
  do 2 eexists. split.
  - exact (statistics_agree env2 IdNull [v1; v2] Hnd).
  - reflexivity.
Defined.

(** The stdio tool handler: an unknown tool is refused as method not
    found, a missing or empty input and an unknown statute as invalid
    params, missing arguments as an internal error; none of these adds
    to the store.  The one error after which the store has grown is the
    internal error raised while rendering a record without
    jurisdiction. *)
Theorem stdio_errors env name args store code message store' :
  stdio_call_tool env name args store = (inl (mkMcpError code message), store') ->
  match code with
  | MethodNotFound =>
      name ≠ "report_violation" ∧ name ≠ "list_statutes" ∧ store' = store
  | InvalidParams =>
      name = "report_violation"
      ∧ (args ≫= fun a => submitted_record env (body_of a)) = None
      ∧ store' = store
  | InternalError =>
      name = "report_violation"
      ∧ (args = None ∧ store' = store
         ∨ ∃ violation,
             (args ≫= fun a => submitted_record env (body_of a)) = Some violation
             ∧ Violation.jurisdiction (ViolationReport.violation violation) = None
             ∧ store' = ViolationStore.addViolation violation store)
  end.
Proof.
  unfold stdio_call_tool.
  destruct (String.eqb_spec name "report_violation") as [->|Hr].
  - destruct args as [[s o c l sv]|]; simpl.
    + unfold submitted_record, body_of. simpl.
      destruct (Js.truthy s), (Js.truthy o), (Js.truthy c); simpl;
        try (intros [= <- <- <-]; by repeat split).
      destruct (getStatuteInfo (default "" s)) as [info|]; simpl;
        [|intros [= <- <- <-]; by repeat split].
      destruct (lookup_jurisdiction info) eqn:Hj; simpl; [discriminate|].
      intros [= <- <- <-]. split; [reflexivity|]. right.
      eexists. repeat split. exact Hj.
    + intros [= <- <- <-]. split; [reflexivity|]. by left.
  - destruct (String.eqb_spec name "list_statutes") as [->|Hl]; [discriminate|].
    intros [= <- <- <-]. by repeat split.
Qed.

Lemma stdio_errors_witness :
  stdio_call_tool env1 "report_violation"
    (Some (report_arguments (Some "toString") (Some "X") (Some "y")))
    ViolationStore.empty
  = (inl (mkMcpError InternalError
            "Error executing tool 'report_violation': Cannot read properties of undefined (reading 'join')"),
     ViolationStore.addViolation
       (build_violation env1 "toString" "X" "y" (Inherited "toString"))
       ViolationStore.empty)
  ∧ ∃ violation,
      submitted_record env1 (request "toString" "X" "y") = Some violation
      ∧ Violation.jurisdiction (ViolationReport.violation violation) = None.
Proof.
  split; [reflexivity|].
  destruct (stdio_errors env1 "report_violation"
              (Some (report_arguments (Some "toString") (Some "X") (Some "y")))
              ViolationStore.empty InternalError _ _ eq_refl)
    as (_ & [[Hargs _] | (violation & Hrec & Hj & _)]); [discriminate|].
  exists violation. split; assumption.
Defined.
